(** * pydocmd.google_docstrings: the docstring preprocessor

    A shallow embedding of [src/pydocmd/google_docstrings.py] and the
    properties of its line pipeline, its title formatter and its
    symbol-reference pass.

    Text is a list of characters; a character is a code point below 256
    (Rocq's [ascii]), and the character classes are those of Python 3 on
    that range ([str.isspace], [str.lower], the [re] classes [\s], [\w],
    [\d] and [.]). *)

From Stdlib Require Import List Ascii ZArith Lia Bool Arith.
Import ListNotations.

Set Implicit Arguments.

(* ================================================================= *)
(** ** Python strings *)

Definition str := list ascii.

Inductive Istr : Set := Inil | Icons (c : ascii) (s : Istr).

Fixpoint istr_of_bytes (l : list Byte.byte) : Istr :=
  match l with
  | [] => Inil
  | b :: t => Icons (ascii_of_byte b) (istr_of_bytes t)
  end.

Fixpoint bytes_of_istr (s : Istr) : list Byte.byte :=
  match s with
  | Inil => []
  | Icons c t => byte_of_ascii c :: bytes_of_istr t
  end.

Declare Scope py_scope.
Delimit Scope py_scope with py.
#[warnings="-via-type-remapping,-via-type-mismatch"]
String Notation str istr_of_bytes bytes_of_istr
  (via Istr mapping [[nil] => Inil, [cons] => Icons]) : py_scope.
Open Scope py_scope.
Open Scope list_scope.

Module Py.

(** The two control characters the source names: ['\n'] and ['\t']. *)
Definition LF : ascii := "010"%char.
Definition TAB : ascii := "009"%char.

Definition code (c : ascii) : nat := nat_of_ascii c.

Definition between (lo hi n : nat) : bool := (lo <=? n) && (n <=? hi).

(** [str.isspace] on one character. *)
Definition is_space (c : ascii) : bool :=
  let n := code c in
  between 9 13 n || between 28 32 n || (n =? 133) || (n =? 160).

(** [str.lower] on one character. *)
Definition lower_char (c : ascii) : ascii :=
  let n := code c in
  if between 65 90 n || (between 192 222 n && negb (n =? 215))
  then ascii_of_nat (n + 32)
  else c.

Definition lower (s : str) : str := map lower_char s.

Fixpoint takewhile (p : ascii -> bool) (s : str) : str :=
  match s with
  | [] => []
  | c :: t => if p c then c :: takewhile p t else []
  end.

Fixpoint dropwhile (p : ascii -> bool) (s : str) : str :=
  match s with
  | [] => []
  | c :: t => if p c then dropwhile p t else s
  end.

(** [s.lstrip()], [s.rstrip()], [s.strip()]. *)
Definition lstrip (s : str) : str := dropwhile is_space s.
Definition rstrip (s : str) : str := rev (dropwhile is_space (rev s)).
Definition strip (s : str) : str := lstrip (rstrip s).

(** [s.startswith(p)]. *)
Fixpoint startswith (p s : str) : bool :=
  match p, s with
  | [], _ => true
  | _ :: _, [] => false
  | a :: p', b :: s' => Ascii.eqb a b && startswith p' s'
  end.

(** [s.endswith(p)]. *)
Definition endswith (p s : str) : bool := startswith (rev p) (rev s).

Definition str_eqb (a b : str) : bool :=
  if list_eq_dec ascii_dec a b then true else false.

(** Truth value of a string: the empty string is false. *)
Definition truthy (s : str) : bool :=
  match s with [] => false | _ :: _ => true end.

(** [c in s] for a one-character [c]. *)
Definition contains (c : ascii) (s : str) : bool := existsb (Ascii.eqb c) s.

(** [x in l] for a list of strings. *)
Definition str_in (x : str) (l : list str) : bool := existsb (str_eqb x) l.

(** [s[i:]]: a negative [i] counts from the end. *)
Definition slice_from (i : Z) (s : str) : str :=
  if (0 <=? i)%Z then skipn (Z.to_nat i) s
  else skipn (Z.to_nat (Z.max 0 (Z.of_nat (length s) + i))) s.

(** [s[:-1]]. *)
Definition drop_last (s : str) : str := removelast s.

(** [s.replace(old, new)] for a one-character [old]. *)
Definition replace (old : ascii) (new : str) (s : str) : str :=
  flat_map (fun c => if Ascii.eqb c old then new else [c]) s.

(** [s.split(sep)] for a one-character [sep]: never the empty list. *)
Fixpoint split (sep : ascii) (s : str) : list str :=
  match s with
  | [] => [[]]
  | c :: t =>
      if Ascii.eqb c sep then [] :: split sep t
      else match split sep t with
           | h :: r => (c :: h) :: r
           | [] => [[c]]
           end
  end.

(** [s.split(sep, 1)]: one or two pieces. *)
Fixpoint split1 (sep : ascii) (s : str) : list str :=
  match s with
  | [] => [[]]
  | c :: t =>
      if Ascii.eqb c sep then [[]; t]
      else match split1 sep t with
           | h :: r => (c :: h) :: r
           | [] => [[c]]
           end
  end.

(** [sep.join(l)] for a one-character [sep]. *)
Fixpoint join (sep : ascii) (l : list str) : str :=
  match l with
  | [] => []
  | [x] => x
  | x :: r => x ++ sep :: join sep r
  end.

(** [' ' * n]. *)
Definition spaces (n : nat) : str := repeat " "%char n.

End Py.

(* ================================================================= *)
(** ** The regular expressions of the module *)

Module Re.
Import Py.

(** [\d]. *)
Definition is_digit (c : ascii) : bool := between 48 57 (code c).

(** [\w]: alphanumeric or the underscore. *)
Definition is_word (c : ascii) : bool :=
  let n := code c in
  between 48 57 n || between 65 90 n || (n =? 95) || between 97 122 n
  || (n =? 170) || (n =? 178) || (n =? 179) || (n =? 181) || (n =? 185)
  || (n =? 186) || between 188 190 n || between 192 214 n
  || between 216 246 n || between 248 255 n.

(** The class [[\w\d\._]] of the reference pattern. *)
Definition is_ref_char (c : ascii) : bool :=
  is_word c || is_digit c || Ascii.eqb c "."%char || Ascii.eqb c "_"%char.

(** [re.match(r'^(.+):$', s)]: group 1 of the match, if any.  [.] is any
    character but the newline, and [$] is the end of the text or the place
    before a newline that ends it. *)
Definition match_header (s : str) : option str :=
  let body := match rev s with
              | c :: r => if Ascii.eqb c LF then rev r else s
              | [] => s
              end in
  match rev body with
  | c :: r =>
      if Ascii.eqb c ":"%char && truthy r && negb (contains LF r)
      then Some (rev r) else None
  | [] => None
  end.

(** [re.match('(\s+)', s)]: group 1 of the match, if any. *)
Definition match_indent (s : str) : option str :=
  match takewhile is_space s with
  | [] => None
  | w => Some w
  end.

End Re.

(* ================================================================= *)
(** ** Exceptions and the state of a [Preprocessor] *)

(** [LineFinished] is the module's own exception; [ValueError] is what the
    tuple assignment [a, b = ...] raises on a list that is not of length 2. *)
Inductive exn : Set := LineFinished | ValueError.

Inductive result (A : Type) : Type :=
| Ok (a : A)
| Raised (e : exn).
Arguments Ok {A} a.
Arguments Raised {A} e.

(** The values of the [valid_sections] table. *)
Inductive SectionName : Set := Arguments | Attributes | Raises | Returns | Yields.

Definition section_str (n : SectionName) : str :=
  match n with
  | Arguments => "Arguments"
  | Attributes => "Attributes"
  | Raises => "Raises"
  | Returns => "Returns"
  | Yields => "Yields"
  end.

(** The one key the module reads from its configuration, as a truth value. *)
Record Config : Set := mkConfig { markdown_header_id : bool }.

Record Preprocessor : Set := mkPreprocessor {
  config : Config;
  indent : Z;
  _current_section : option SectionName;
  _in_codeblock : bool;
  _in_doctest_codeblock : bool;
  _lines : list str
}.

(** What [preprocess_section] reads and writes of its argument:
    [section.loader_context.get('sig')], [section.title], [section.content]. *)
Record DocSection : Set := mkDocSection {
  sig : option str;
  title : str;
  content : str
}.

Definition valid_sections : list (str * SectionName) :=
  [ ("args", Arguments);
    ("arguments", Arguments);
    ("parameters", Arguments);
    ("params", Arguments);
    ("attributes", Attributes);
    ("members", Attributes);
    ("raises", Raises);
    ("return", Returns);
    ("returns", Returns);
    ("yields", Yields) ].

Fixpoint dict_get (k : str) (d : list (str * SectionName)) : option SectionName :=
  match d with
  | [] => None
  | (k', v) :: r => if Py.str_eqb k k' then Some v else dict_get k r
  end.

(** [Preprocessor(config)]. *)
Definition __init__ (cfg : Config) : Preprocessor :=
  {| config := cfg;
     indent := 0;
     _current_section := None;
     _in_codeblock := false;
     _in_doctest_codeblock := false;
     _lines := [] |}.

(** A method body: it may update [self] and then returns or raises; the
    updates made before a [raise] stay. *)
Definition M (A : Type) : Type := Preprocessor -> result A * Preprocessor.

Definition ret {A} (a : A) : M A := fun self => (Ok a, self).

Definition raise {A} (e : exn) : M A := fun self => (Raised e, self).

Definition bind {A B} (m : M A) (k : A -> M B) : M B :=
  fun self =>
    match m self with
    | (Ok a, self') => k a self'
    | (Raised e, self') => (Raised e, self')
    end.

Notation "x <- m ;; k" := (bind m (fun x => k))
  (at level 61, m at next level, right associativity).
Notation "m ;;; k" := (bind m (fun _ => k))
  (at level 61, right associativity).

Definition get : M Preprocessor := fun self => (Ok self, self).

(** Assignments to the attributes of [self]. *)
Definition with_indent (i : Z) (self : Preprocessor) : Preprocessor :=
  {| config := config self; indent := i;
     _current_section := _current_section self;
     _in_codeblock := _in_codeblock self;
     _in_doctest_codeblock := _in_doctest_codeblock self;
     _lines := _lines self |}.

Definition with_current_section (s : option SectionName) (self : Preprocessor)
  : Preprocessor :=
  {| config := config self; indent := indent self;
     _current_section := s;
     _in_codeblock := _in_codeblock self;
     _in_doctest_codeblock := _in_doctest_codeblock self;
     _lines := _lines self |}.

Definition with_in_codeblock (b : bool) (self : Preprocessor) : Preprocessor :=
  {| config := config self; indent := indent self;
     _current_section := _current_section self;
     _in_codeblock := b;
     _in_doctest_codeblock := _in_doctest_codeblock self;
     _lines := _lines self |}.

Definition with_in_doctest_codeblock (b : bool) (self : Preprocessor)
  : Preprocessor :=
  {| config := config self; indent := indent self;
     _current_section := _current_section self;
     _in_codeblock := _in_codeblock self;
     _in_doctest_codeblock := b;
     _lines := _lines self |}.

Definition with_lines (l : list str) (self : Preprocessor) : Preprocessor :=
  {| config := config self; indent := indent self;
     _current_section := _current_section self;
     _in_codeblock := _in_codeblock self;
     _in_doctest_codeblock := _in_doctest_codeblock self;
     _lines := l |}.

Definition set_indent (i : Z) : M unit :=
  fun self => (Ok tt, with_indent i self).

Definition set_current_section (s : option SectionName) : M unit :=
  fun self => (Ok tt, with_current_section s self).

Definition set_in_codeblock (b : bool) : M unit :=
  fun self => (Ok tt, with_in_codeblock b self).

Definition set_in_doctest_codeblock (b : bool) : M unit :=
  fun self => (Ok tt, with_in_doctest_codeblock b self).

Definition set_lines (l : list str) : M unit :=
  fun self => (Ok tt, with_lines l self).

(** [self._lines.append(line)]. *)
Definition lines_append (line : str) : M unit :=
  self <- get ;; set_lines (_lines self ++ [line]).

(** [try: body except LineFinished: continue]. *)
Definition except_LineFinished (body : M unit) : M unit := fun self =>
  match body self with
  | (Raised LineFinished, self') => (Ok tt, self')
  | r => r
  end.

(** [for x in l: body(x)]; an exception that leaves the body ends the loop. *)
Fixpoint for_each {A} (l : list A) (body : A -> M unit) : M unit :=
  match l with
  | [] => ret tt
  | x :: r => body x ;;; for_each r body
  end.

(** [a, b = l]. *)
Definition unpack2 (l : list str) : M (str * str) :=
  match l with
  | [a; b] => ret (a, b)
  | _ => raise ValueError
  end.

(* ================================================================= *)
(** ** The per-line stages *)

Import Py.

Definition _process_codeblock (line : str) : M str :=
  (if startswith "```" line
   then self <- get ;; set_in_codeblock (negb (_in_codeblock self))
   else ret tt) ;;;
  self <- get ;;
  if _in_codeblock self
  then lines_append line ;;; raise LineFinished
  else ret line.

Definition _process_doctest_codeblock (line : str) : M str :=
  let blank_token := "<BLANKLINE>" in
  let block_indicated := str_in (firstn 4 (lstrip line)) [">>> "; "... "] in
  let whitespace := firstn (length line - length (lstrip line)) line in
  let processed_line :=
    replace TAB (spaces 8) whitespace ++ skipn (length whitespace) line in
  self <- get ;;
  if negb (_in_doctest_codeblock self) then
    if block_indicated then
      set_in_doctest_codeblock true ;;;
      lines_append "```python" ;;;
      lines_append processed_line ;;;
      raise LineFinished
    else ret line
  else if block_indicated then
    lines_append processed_line ;;; raise LineFinished
  else if str_eqb (strip line) blank_token then
    lines_append "" ;;; raise LineFinished
  else if truthy (strip line) then
    lines_append processed_line ;;; raise LineFinished
  else
    set_in_doctest_codeblock false ;;;
    lines_append "```" ;;;
    ret line.

(** The three section branches differ in their format string only. *)
Definition rewrite_entry (fmt : str -> str -> str) (line : str) : M str :=
  if contains ":"%char line then
    ab <- unpack2 (split1 ":"%char (strip line)) ;;
    let '(a, b) := ab in
    if truthy (strip a) && truthy (strip b) then ret (fmt a b) else ret line
  else ret line.

(** [_process_line] from the comment [# check indent level.] on. *)
Definition _process_line_body (line : str) : M str :=
  let whitespace :=
    match Re.match_indent line with Some w => w | None => "" end in
  self <- get ;;
  (if (indent self =? -1)%Z then set_indent (Z.of_nat (length whitespace))
   else if (Z.of_nat (length whitespace) <? indent self)%Z then
     set_current_section None ;;; set_indent 0
   else ret tt) ;;;
  self <- get ;;
  let line := slice_from (indent self) line in
  match _current_section self with
  | Some Arguments =>
      rewrite_entry (fun a b => "* __" ++ a ++ "__: " ++ b) line
  | Some Attributes | Some Raises =>
      rewrite_entry (fun a b => "* `" ++ a ++ "`: " ++ b) line
  | Some Returns | Some Yields =>
      rewrite_entry (fun a b => "`" ++ a ++ "`:" ++ b) line
  | None => ret line
  end.

Definition _process_line (line : str) : M str :=
  if negb (truthy (strip line)) then ret line
  else
    match Re.match_header (rstrip line) with
    | Some g =>
        let sec_name := lower (strip g) in
        match dict_get sec_name valid_sections with
        | Some canonical =>
            set_current_section (Some canonical) ;;;
            let line := "__" ++ section_str canonical ++ "__" ++ [LF] in
            set_indent (-1) ;;;
            ret line
        | None => _process_line_body line
        end
    | None => _process_line_body line
    end.

(* ================================================================= *)
(** ** The symbol-reference pass *)

(** The nested function [handler] of [_preprocess_refs], on the groups
    [prefix], [ref] and [parens] of a match; [parens] is [None] when the
    optional group took no part in the match. *)
Definition handler (prefix ref : str) (parens : option str) : str :=
  let parens := match parens with Some p => if truthy p then p else "" | None => "" end in
  let '(ref, has_trailing_dot) :=
    if negb (truthy parens) && endswith "." ref
    then (drop_last ref, true) else (ref, false) in
  let result := "`" ++ (ref ++ parens) ++ "`" in
  let result := if has_trailing_dot then result ++ "." else result in
  prefix ++ result.

(** The pattern after its [prefix] group and the [#]: the longest run of
    [[\w\d\._]], at least one character, then [()] if it is there.  Gives
    the replacement text and what follows the match. *)
Definition match_ref (prefix s : str) : option (str * str) :=
  let ref := takewhile Re.is_ref_char s in
  let rest := dropwhile Re.is_ref_char s in
  if truthy ref then
    if startswith "()" rest
    then Some (handler prefix ref (Some "()"), skipn 2 rest)
    else Some (handler prefix ref None, rest)
  else None.

(** One attempt of the pattern
    [(?P<prefix>^| |\t)#(?P<ref>[\w\d\._]+)(?P<parens>\(\))?] at the current
    place; [at_start] says that the place is the start of the whole text,
    the only place where [^] matches.  The alternatives are tried in the
    order of the pattern. *)
Definition match_at (at_start : bool) (s : str) : option (str * str) :=
  let by_caret :=
    if at_start then
      match s with
      | c :: t => if Ascii.eqb c "#"%char then match_ref "" t else None
      | [] => None
      end
    else None in
  match by_caret with
  | Some r => Some r
  | None =>
      match s with
      | c :: h :: t =>
          if (Ascii.eqb c " "%char || Ascii.eqb c TAB) && Ascii.eqb h "#"%char
          then match_ref [c] t else None
      | _ => None
      end
  end.

(** [re.sub] with [handler]: the leftmost match from the current place on is
    replaced and the scan goes on after it; a character at which no match
    starts is copied.  A step consumes at least one character, so that
    [length s] steps are enough. *)
Fixpoint sub_refs (fuel : nat) (at_start : bool) (s : str) : str :=
  match fuel with
  | O => s
  | S fuel' =>
      match match_at at_start s with
      | Some (replacement, rest) => replacement ++ sub_refs fuel' false rest
      | None =>
          match s with
          | [] => []
          | c :: t => c :: sub_refs fuel' false t
          end
      end
  end.

Definition _preprocess_refs (content : str) : str :=
  sub_refs (length content) true content.

(* ================================================================= *)
(** ** [preprocess_section] *)

(** [for char in r'\*_': sig = sig.replace(char, '\\' + char)]. *)
Definition escape_sig (sig : str) : str :=
  fold_left (fun sig char => replace char ("\"%char :: [char]) sig)
            ("\"%char :: "*"%char :: "_"%char :: nil) sig.

(** [sig.split('(', 1)[0]]; the list that [split] returns is never empty. *)
Definition before_paren (sig : str) : str := hd "" (split1 "("%char sig).

(** The title assignment of [preprocess_section]; [sig] is already the
    escaped text when the anchor is built from it. *)
Definition section_title (cfg : Config) (section : DocSection) : str :=
  match sig section with
  | Some sig =>
      if truthy sig then
        let sig := escape_sig sig in
        let new_title := sig in
        if markdown_header_id cfg
        then new_title ++ "  {#" ++ before_paren sig ++ "}"
        else new_title
      else title section
  | None => title section
  end.

(** The body of the [for] loop with its [try]. *)
Definition process_one (line : str) : M unit :=
  except_LineFinished
    (line <- _process_codeblock line ;;
     line <- _process_doctest_codeblock line ;;
     line <- _process_line line ;;
     lines_append line).

Definition preprocess_section (section : DocSection) : M DocSection :=
  set_current_section None ;;;
  set_in_codeblock false ;;;
  set_in_doctest_codeblock false ;;;
  set_lines [] ;;;
  self <- get ;;
  let new_title := section_title (config self) section in
  for_each (split LF (content section)) process_one ;;;
  self <- get ;;
  ret {| sig := sig section;
         title := new_title;
         content := _preprocess_refs (join LF (_lines self)) |}.

(** Text of several lines. *)
Definition unlines (l : list str) : str := join LF l.

(* ================================================================= *)
(** ** Vocabulary of the properties *)

(** Length of the run of whitespace a line starts with. *)
Definition leading_whitespace (line : str) : nat :=
  length (takewhile is_space line).

(** A line that [_process_line] takes for the header of a section. *)
Definition is_section_header (line : str) : bool :=
  match Re.match_header (rstrip line) with
  | Some g =>
      match dict_get (lower (strip g)) valid_sections with
      | Some _ => true
      | None => false
      end
  | None => false
  end.

(** The fence flag as the check at the head of [_process_codeblock] leaves
    it. *)
Definition fence_after (line : str) (self : Preprocessor) : bool :=
  if startswith "```" line then negb (_in_codeblock self) else _in_codeblock self.

(** What follows the fence stage in the loop body. *)
Definition after_fence_stage (line : str) : M unit :=
  except_LineFinished
    (line <- _process_doctest_codeblock line ;;
     line <- _process_line line ;;
     lines_append line).

(** The section rewriter run over consecutive lines, with the lines it
    returns. *)
Fixpoint rewrite_lines (l : list str) : M (list str) :=
  match l with
  | [] => ret []
  | line :: r =>
      line' <- _process_line line ;;
      r' <- rewrite_lines r ;;
      ret (line' :: r')
  end.

(** The reference pass from a place of the content on, and on text that
    does not begin the content: [^] does not match in it. *)
Definition refs_from (at_start : bool) (s : str) : str :=
  sub_refs (length s) at_start s.

Definition refs_inside (s : str) : str := refs_from false s.

(** A signature with each of the characters backslash, asterisk and
    underscore prefixed by a backslash, in one pass over the text. *)
Definition is_metachar (c : ascii) : bool :=
  Ascii.eqb c "\"%char || Ascii.eqb c "*"%char || Ascii.eqb c "_"%char.

Definition escaped (s : str) : str :=
  flat_map (fun c => if is_metachar c then ["\"%char; c] else [c]) s.

(** The text up to, and without, the first occurrence of [c]. *)
Definition text_before (c : ascii) (s : str) : str :=
  takewhile (fun x => negb (Ascii.eqb x c)) s.

(** A processor that has already preprocessed the section
    [Args:], [    x: int]. *)
Definition used_processor (cfg : Config) : Preprocessor :=
  snd (preprocess_section
         {| sig := None; title := ""; content := unlines ["Args:"; "    x: int"] |}
         (__init__ cfg)).

(** A line that starts with the fence marker. *)
Definition is_marker (line : str) : bool := startswith "```" line.

(** [block_indicated] of the transcript detector. *)
Definition is_prompt (line : str) : bool :=
  str_in (firstn 4 (lstrip line)) [">>> "; "... "].

(** [processed_line] of the transcript detector. *)
Definition expand_tabs (line : str) : str :=
  let whitespace := firstn (length line - length (lstrip line)) line in
  replace TAB (spaces 8) whitespace ++ skipn (length whitespace) line.

(** What the transcript detector appends for a line with content while a
    transcript is open. *)
Definition transcript_line (line : str) : str :=
  if is_prompt line then expand_tabs line
  else if str_eqb (strip line) "<BLANKLINE>" then ""
  else expand_tabs line.

(** The format of an entry in each section, as in the three branches of
    [_process_line]. *)
Definition entry_format (s : SectionName) (a b : str) : str :=
  match s with
  | Arguments => "* __" ++ a ++ "__: " ++ b
  | Attributes | Raises => "* `" ++ a ++ "`: " ++ b
  | Returns | Yields => "`" ++ a ++ "`:" ++ b
  end.

(** A line that none of the three stages takes for markup. *)
Definition plain_line (line : str) : bool :=
  negb (is_marker line) && negb (is_prompt line) && negb (is_section_header line).

(** The state after the indentation check of [_process_line]: the first
    line after a header sets the baseline, a line indented less than the
    baseline ends the section. *)
Definition indent_check (line : str) (self : Preprocessor) : Preprocessor :=
  if (indent self =? -1)%Z
  then with_indent (Z.of_nat (leading_whitespace line)) self
  else if (Z.of_nat (leading_whitespace line) <? indent self)%Z
       then with_indent 0 (with_current_section None self)
       else self.

(** The rewriting that follows the indentation check, on the line already
    cut at the baseline. *)
Definition section_rewrite (sec : option SectionName) (line : str) : M str :=
  match sec with
  | Some s => rewrite_entry (entry_format s) line
  | None => ret line
  end.

(** A character that the reference pattern accepts before [#]. *)
Definition is_blank (c : ascii) : bool :=
  Ascii.eqb c " "%char || Ascii.eqb c TAB.

(** A text without its [#] and backtick characters. *)
Definition other_chars (s : str) : str :=
  filter (fun c => negb (Ascii.eqb c "#"%char) && negb (Ascii.eqb c "`"%char)) s.

(** All characters of the model. *)
Definition all_chars : list ascii := map ascii_of_nat (seq 0 256).

(** The characters that [str.lower] sends to [a]..[z]. *)
Definition letter (c : ascii) : bool := between 97 122 (code (lower_char c)).

(** A result that is not an exception of the caller's concern:
    [LineFinished] is what the loop catches. *)
Definition finishes_line {A} (r : result A) : Prop :=
  match r with
  | Ok _ => True
  | Raised LineFinished => True
  | Raised ValueError => False
  end.

(* ================================================================= *)
(** ** Characters *)

Section Characters.

Lemma in_all_chars (c : ascii) : In c all_chars.
Proof.
  unfold all_chars.
  rewrite <- (ascii_nat_embedding c).
  apply in_map, in_seq.
  pose proof (nat_ascii_bounded c). lia.
Qed.

(** A boolean property checked on the 256 characters holds of each. *)
Lemma by_all_chars (P : ascii -> bool) :
  forallb P all_chars = true -> forall c, P c = true.
Proof.
  intros H c. rewrite forallb_forall in H. apply H, in_all_chars.
Qed.

Lemma letter_not_space c : letter c = true -> is_space c = false.
Proof.
  intro H. apply negb_true_iff. revert H. apply implb_true_iff. revert c.
  apply (by_all_chars (fun c => implb (letter c) (negb (is_space c)))).
  vm_compute. reflexivity.
Qed.

Lemma letter_not_special c :
  letter c = true ->
  Ascii.eqb c "`"%char = false /\ Ascii.eqb c ">"%char = false /\
  Ascii.eqb c "."%char = false /\ Ascii.eqb LF c = false.
Proof.
  intro H.
  assert (G : (negb (Ascii.eqb c "`"%char) && negb (Ascii.eqb c ">"%char) &&
               negb (Ascii.eqb c "."%char) && negb (Ascii.eqb LF c)) = true).
  { revert H. apply implb_true_iff. revert c.
    apply (by_all_chars (fun c => implb (letter c) _)).
    vm_compute. reflexivity. }
  rewrite !andb_true_iff, !negb_true_iff in G. tauto.
Qed.

Lemma ref_char_not_blank c :
  Re.is_ref_char c = true ->
  Ascii.eqb c " "%char || Ascii.eqb c TAB = false.
Proof.
  intro H. apply negb_true_iff. revert H. apply implb_true_iff. revert c.
  apply (by_all_chars (fun c => implb (Re.is_ref_char c) _)).
  vm_compute. reflexivity.
Qed.

Lemma colon_not_space : is_space ":"%char = false.
Proof. reflexivity. Qed.

End Characters.

(* ================================================================= *)
(** ** Running the monad *)

Ltac run :=
  cbv [bind ret raise get set_indent set_current_section set_in_codeblock
       set_in_doctest_codeblock set_lines lines_append except_LineFinished
       unpack2];
  cbn [fst snd config indent _current_section _in_codeblock
       _in_doctest_codeblock _lines with_indent with_current_section
       with_in_codeblock with_in_doctest_codeblock with_lines].

(* ================================================================= *)
(** ** The transcript detector *)

Section Transcript.

(** C2.  With no fence and no transcript open, and whatever the section,
    the four lines [>>> x = 1], [>>> x], [1] and the empty line leave the
    loop as the six lines [```python], [>>> x = 1], [>>> x], [1], [```] and
    the empty line, appended to the output in that order; nothing else of
    the state changes. *)
Theorem transcript_block_output (self : Preprocessor) :
  _in_codeblock self = false ->
  _in_doctest_codeblock self = false ->
  for_each [">>> x = 1"; ">>> x"; "1"; ""] process_one self =
  (Ok tt,
   with_lines (_lines self ++ ["```python"; ">>> x = 1"; ">>> x"; "1"; "```"; ""])
              self).
Proof.
  destruct self as [cfg ind sec cb dt ls]. cbn. intros -> ->.
  unfold with_lines. cbn.
  replace (ls ++ ["```python"; ">>> x = 1"; ">>> x"; "1"; "```"; ""])
    with ((((((ls ++ ["```python"]) ++ [">>> x = 1"]) ++ [">>> x"]) ++ ["1"])
             ++ ["```"]) ++ [""])
    by (repeat rewrite <- app_assoc; reflexivity).
  reflexivity.
Qed.

Lemma transcript_block_output_witness :
  for_each [">>> x = 1"; ">>> x"; "1"; ""] process_one
           (__init__ {| markdown_header_id := false |}) =
  (Ok tt,
   with_lines ["```python"; ">>> x = 1"; ">>> x"; "1"; "```"; ""]
              (__init__ {| markdown_header_id := false |})).
Proof.
  apply (transcript_block_output (__init__ {| markdown_header_id := false |}));
    reflexivity.
Defined.

(** The same block as the content of a section, whatever the processor
    did before. *)
Lemma transcript_block_section (self : Preprocessor) (sg : option str) (t : str) :
  let section :=
    {| sig := sg; title := t;
       content := unlines [">>> x = 1"; ">>> x"; "1"; ""] |} in
  fst (preprocess_section section self) =
  Ok {| sig := sg;
        title := section_title (config self) section;
        content :=
          unlines ["```python"; ">>> x = 1"; ">>> x"; "1"; "```"; ""] |}.
Proof.
  destruct self as [cfg ind sec cb dt ls]. vm_compute. reflexivity.
Qed.

End Transcript.

(* ================================================================= *)
(** ** Facts on the string operations *)

Section StringFacts.

Variable p : ascii -> bool.

Lemma takewhile_dropwhile (s : str) : takewhile p s ++ dropwhile p s = s.
Proof.
  induction s as [|c t IH]; cbn; [reflexivity|].
  destruct (p c); cbn; [now rewrite IH | reflexivity].
Qed.

Lemma takewhile_stop (a : str) (c : ascii) (b : str) :
  p c = false -> takewhile p (a ++ c :: b) = takewhile p a.
Proof.
  intro Hc. induction a as [|x a IH]; cbn.
  - now rewrite Hc.
  - destruct (p x); [now rewrite IH | reflexivity].
Qed.

Lemma dropwhile_stop (a : str) (c : ascii) (b : str) :
  p c = false -> dropwhile p (a ++ c :: b) = dropwhile p a ++ c :: b.
Proof.
  intro Hc. induction a as [|x a IH]; cbn.
  - now rewrite Hc.
  - destruct (p x); [exact IH | reflexivity].
Qed.

Lemma dropwhile_all (w r : str) :
  Forall (fun c => p c = true) w -> dropwhile p (w ++ r) = dropwhile p r.
Proof.
  induction 1 as [|c w Hc _ IH]; cbn; [reflexivity|]. now rewrite Hc.
Qed.

Lemma dropwhile_none (s : str) :
  Forall (fun c => p c = false) s -> dropwhile p s = s.
Proof.
  destruct 1 as [|c w Hc _]; cbn; [reflexivity|]. now rewrite Hc.
Qed.

Lemma dropwhile_length (s : str) : length (dropwhile p s) <= length s.
Proof.
  induction s as [|c t IH]; cbn; [lia|]. destruct (p c); cbn; lia.
Qed.

End StringFacts.

Section StripFacts.

Lemma rstrip_spaces (x w : str) :
  Forall (fun c => is_space c = true) w -> rstrip (x ++ w) = rstrip x.
Proof.
  intro H. unfold rstrip. rewrite rev_app_distr, dropwhile_all; [reflexivity|].
  now apply Forall_rev.
Qed.

Lemma rstrip_keeps (x : str) (c : ascii) :
  is_space c = false -> rstrip (x ++ [c]) = x ++ [c].
Proof.
  intro H. unfold rstrip. rewrite rev_app_distr. cbn. rewrite H. cbn.
  now rewrite rev_involutive.
Qed.

Lemma strip_none (s : str) :
  Forall (fun c => is_space c = false) s -> strip s = s.
Proof.
  intro H. unfold strip, lstrip, rstrip.
  rewrite (@dropwhile_none is_space (rev s)) by now apply Forall_rev.
  rewrite rev_involutive. now apply dropwhile_none.
Qed.

Lemma contains_In (c : ascii) (s : str) : contains c s = true <-> In c s.
Proof.
  unfold contains. rewrite existsb_exists. split.
  - intros [x [Hx E]]. apply Ascii.eqb_eq in E. now subst.
  - intro H. exists c. split; [exact H | apply Ascii.eqb_refl].
Qed.

Lemma In_dropwhile_space (c : ascii) (s : str) :
  is_space c = false -> In c s -> In c (dropwhile is_space s).
Proof.
  intros Hc. induction s as [|x t IH]; cbn; [tauto|].
  destruct (is_space x) eqn:Hx.
  - intros [->|H]; [congruence | now apply IH].
  - cbn. tauto.
Qed.

Lemma contains_strip (c : ascii) (s : str) :
  is_space c = false -> contains c s = true -> contains c (strip s) = true.
Proof.
  intros Hc H. apply contains_In in H. apply contains_In.
  unfold strip, lstrip, rstrip.
  apply In_dropwhile_space; [exact Hc|].
  apply -> in_rev. apply In_dropwhile_space; [exact Hc|].
  now apply -> in_rev.
Qed.

Lemma split1_two (c : ascii) (s : str) :
  contains c s = true -> exists a b, split1 c s = [a; b].
Proof.
  induction s as [|x t IH]; cbn; [discriminate|].
  rewrite (Ascii.eqb_sym c x).
  destruct (Ascii.eqb x c); cbn.
  - intros _. now exists [], t.
  - intro H. destruct (IH H) as [a [b E]]. rewrite E. now exists (x :: a), b.
Qed.

Lemma split1_not_empty (c : ascii) (s : str) : split1 c s <> [].
Proof.
  destruct s as [|x t]; cbn; [discriminate|].
  destruct (Ascii.eqb x c); [discriminate|].
  destruct (split1 c t); discriminate.
Qed.

Lemma split1_hd (c : ascii) (s : str) :
  hd [] (split1 c s) = text_before c s.
Proof.
  unfold text_before. induction s as [|x t IH]; cbn; [reflexivity|].
  destruct (Ascii.eqb x c); cbn; [reflexivity|].
  rewrite <- IH. now destruct (split1 c t).
Qed.

Lemma indent_group (line : str) :
  match Re.match_indent line with Some w => w | None => [] end =
  takewhile is_space line.
Proof.
  unfold Re.match_indent. now destruct (takewhile is_space line).
Qed.

Lemma slice_from_0 (s : str) : slice_from 0 s = s.
Proof. reflexivity. Qed.

End StripFacts.

(* ================================================================= *)
(** ** The section rewriter *)

Section SectionRewriter.

Lemma process_line_blank (line : str) :
  truthy (strip line) = false -> _process_line line = ret line.
Proof. unfold _process_line. now intros ->. Qed.

Lemma process_line_not_header (line : str) :
  truthy (strip line) = true ->
  is_section_header line = false ->
  _process_line line = _process_line_body line.
Proof.
  unfold _process_line, is_section_header. intros -> H. cbn [negb].
  destruct (Re.match_header (rstrip line)) as [g|]; [|reflexivity].
  destruct (dict_get (lower (strip g)) valid_sections);
    [discriminate | reflexivity].
Qed.

(** A line indented less than the baseline ends the section and is
    returned as it came. *)
Lemma body_indentation_drop (line : str) (self : Preprocessor) :
  (Z.of_nat (leading_whitespace line) < indent self)%Z ->
  _process_line_body line self =
  (Ok line, with_indent 0 (with_current_section None self)).
Proof.
  unfold leading_whitespace, _process_line_body. intro H.
  rewrite indent_group. run.
  replace (indent self =? -1)%Z with false by (symmetry; apply Z.eqb_neq; lia).
  replace (Z.of_nat (length (takewhile is_space line)) <? indent self)%Z
    with true by (symmetry; apply Z.ltb_lt; lia).
  reflexivity.
Qed.

(** With no section and the baseline 0 the rewriter changes nothing. *)
Lemma body_plain (line : str) (self : Preprocessor) :
  _current_section self = None -> indent self = 0%Z ->
  _process_line_body line self = (Ok line, self).
Proof.
  destruct self as [cfg ind sec cb dt ls]. cbn. intros -> ->.
  unfold _process_line_body. rewrite indent_group. run. cbn.
  replace (Z.of_nat (length (takewhile is_space line)) <? 0)%Z
    with false by (symmetry; apply Z.ltb_ge; lia).
  reflexivity.
Qed.

Lemma rewrite_lines_plain (rest : list str) (self : Preprocessor) :
  _current_section self = None -> indent self = 0%Z ->
  Forall (fun l => is_section_header l = false) rest ->
  rewrite_lines rest self = (Ok rest, self).
Proof.
  intros Hs Hi. induction 1 as [|l rest Hl _ IH]; [reflexivity|].
  cbn [rewrite_lines]. unfold bind at 1.
  assert (E : _process_line l self = (Ok l, self)).
  { destruct (truthy (strip l)) eqn:B.
    - rewrite process_line_not_header by assumption. now apply body_plain.
    - now rewrite process_line_blank. }
  rewrite E. unfold bind at 1. now rewrite IH.
Qed.

(** C4 (as the code has it).  In the section Arguments with the baseline 4,
    the line [    x: the input value] is rewritten to
    [* __x__:  the input value]: the description keeps the space that
    follows the colon in the input, after the space of the format, and the
    state is left as it was.  Outside fence and transcript that line is
    what the loop appends. *)
Theorem arguments_entry_output (self : Preprocessor) :
  _current_section self = Some Arguments ->
  indent self = 4%Z ->
  _process_line "    x: the input value" self =
    (Ok "* __x__:  the input value", self)
  /\ (_in_codeblock self = false -> _in_doctest_codeblock self = false ->
      process_one "    x: the input value" self =
        (Ok tt, with_lines (_lines self ++ ["* __x__:  the input value"]) self)).
Proof.
  destruct self as [cfg ind sec cb dt ls]. cbn. intros -> ->. split.
  - reflexivity.
  - intros -> ->. reflexivity.
Qed.

Lemma arguments_entry_output_witness :
  let self := with_indent 4 (with_current_section (Some Arguments)
                (__init__ {| markdown_header_id := false |})) in
  _process_line "    x: the input value" self =
    (Ok "* __x__:  the input value", self)
  /\ (_in_codeblock self = false -> _in_doctest_codeblock self = false ->
      process_one "    x: the input value" self =
        (Ok tt, with_lines (_lines self ++ ["* __x__:  the input value"]) self)).
Proof.
  intro self. apply (arguments_entry_output self); reflexivity.
Defined.

(** C4 as stated fails: the line returned is not the one with a single
    space after the colon. *)
Lemma arguments_entry_single_space_refuted :
  let self := with_indent 4 (with_current_section (Some Arguments)
                (__init__ {| markdown_header_id := false |})) in
  fst (_process_line "    x: the input value" self) <>
  Ok "* __x__: the input value".
Proof. cbv zeta. vm_compute. discriminate. Qed.

(** C5 (as the code has it).  A line with content that is no section
    header and is indented less than the baseline (which is then an
    established one, not -1) clears the section and sets the baseline to 0;
    the rewriter returns that line as it came, and it returns as they came
    all the lines after it up to the next section header, colons or not, in
    the state it reached.  The section that was active does not matter. *)
Theorem indentation_drop_ends_section
        (self : Preprocessor) (line : str) (rest : list str) :
  truthy (strip line) = true ->
  is_section_header line = false ->
  (Z.of_nat (leading_whitespace line) < indent self)%Z ->
  Forall (fun l => is_section_header l = false) rest ->
  let ended := with_indent 0 (with_current_section None self) in
  _current_section ended = None /\ indent ended = 0%Z /\
  _process_line line self = (Ok line, ended) /\
  rewrite_lines rest ended = (Ok rest, ended).
Proof.
  intros B H D R ended. repeat split.
  - rewrite process_line_not_header by assumption.
    now apply body_indentation_drop.
  - now apply rewrite_lines_plain.
Qed.

Lemma indentation_drop_ends_section_witness :
  let self := with_indent 4 (with_current_section (Some Arguments)
                (__init__ {| markdown_header_id := false |})) in
  let ended := with_indent 0 (with_current_section None self) in
  _current_section ended = None /\ indent ended = 0%Z /\
  _process_line "  note: see below" self = (Ok "  note: see below", ended) /\
  rewrite_lines ["    y: an int"; "Note:"; ""; "z: w"] ended =
    (Ok ["    y: an int"; "Note:"; ""; "z: w"], ended).
Proof.
  intro self.
  apply (@indentation_drop_ends_section self "  note: see below"
           ["    y: an int"; "Note:"; ""; "z: w"]).
  - reflexivity.
  - reflexivity.
  - vm_compute. reflexivity.
  - repeat constructor.
Defined.

(** C5 as stated fails for a line that is itself a section header: header
    detection comes before the indentation check.  In the section Arguments
    with the baseline 4, the line [Returns:] at column 0 is indented less
    than the baseline, yet the section is not cleared and the baseline is
    not 0: the section becomes Returns, the baseline -1, and the line is
    replaced by the marker of the new section. *)
Lemma indentation_drop_header_refuted :
  let self := with_indent 4 (with_current_section (Some Arguments)
                (__init__ {| markdown_header_id := false |})) in
  truthy (strip "Returns:") = true
  /\ _current_section self = Some Arguments
  /\ (Z.of_nat (leading_whitespace "Returns:") < indent self)%Z
  /\ _process_line "Returns:" self =
     (Ok ("__Returns__" ++ [LF]),
      with_indent (-1) (with_current_section (Some Returns) self))
  /\ _process_line "Returns:" self <>
     (Ok "Returns:", with_indent 0 (with_current_section None self)).
Proof.
  cbv zeta. repeat split; try reflexivity.
  vm_compute. discriminate.
Qed.

End SectionRewriter.

(* ================================================================= *)
(** ** The fence detector *)

Section Fence.

(** C1 (as the code has it).  The flag is toggled by a line that itself
    starts with the marker, from its first character on.  A line for which
    the flag is set after that check, the opening line included, is
    appended as it came and nothing else of the state changes: the loop
    body is over.  A line for which the flag is clear after the check, the
    closing line included, is returned to the loop, which hands it to the
    transcript detector and the section rewriter. *)
Theorem fence_stage (line : str) (self : Preprocessor) :
  _in_codeblock (snd (_process_codeblock line self)) = fence_after line self
  /\ (fence_after line self = true ->
      _process_codeblock line self =
        (Raised LineFinished,
         with_lines (_lines self ++ [line]) (with_in_codeblock true self))
      /\ process_one line self =
        (Ok tt, with_lines (_lines self ++ [line]) (with_in_codeblock true self)))
  /\ (fence_after line self = false ->
      _process_codeblock line self = (Ok line, with_in_codeblock false self)
      /\ process_one line self =
         after_fence_stage line (with_in_codeblock false self)).
Proof.
  destruct self as [cfg ind sec cb dt ls].
  unfold fence_after, process_one, after_fence_stage, _process_codeblock.
  run. destruct (startswith "```" line), cb; run; cbn;
    (repeat split; intros; try discriminate; reflexivity).
Qed.

Lemma fence_stage_witness :
  let self := with_in_codeblock true (__init__ {| markdown_header_id := false |}) in
  let out := with_in_codeblock false self in
  (fence_after "Args:" self = true /\
   process_one "Args:" self = (Ok tt, with_lines ["Args:"] self)) /\
  (fence_after "```" self = false /\
   _process_codeblock "```" self = (Ok "```", out)).
Proof.
  intros self out.
  destruct (fence_stage "Args:" self) as [_ [H1 _]].
  destruct (fence_stage "```" self) as [_ [_ H2]].
  split.
  - split; [reflexivity|]. apply H1. reflexivity.
  - split; [reflexivity|]. apply H2. reflexivity.
Defined.

(** C1 as stated fails twice.  An indented marker line, whose content
    after trimming starts with the marker, leaves the flag as it was.
    And the line that closes a fence is not the end of the loop body: it
    goes through the section rewriter, which here ends the section
    Arguments, a change that appending the line would not make. *)
Lemma fence_claim_refuted :
  let closed := __init__ {| markdown_header_id := false |} in
  let fenced := with_in_codeblock true
                  (with_indent 4 (with_current_section (Some Arguments) closed)) in
  (startswith "```" (strip "  ```") = true /\
   _in_codeblock (snd (_process_codeblock "  ```" closed)) = _in_codeblock closed)
  /\
  (startswith "```" "```" = true /\
   fst (_process_codeblock "```" fenced) <> Raised LineFinished /\
   process_one "```" fenced <>
     (Ok tt, with_lines (_lines fenced ++ ["```"]) (with_in_codeblock false fenced)) /\
   _current_section (snd (process_one "```" fenced)) = None).
Proof.
  cbv zeta. repeat split; try reflexivity; vm_compute; discriminate.
Qed.

(** X1.  Inside a fence the lines that do not start with the marker are
    appended as they come, whatever they look like. *)
Lemma fenced_lines_verbatim (body : list str) :
  forall self : Preprocessor,
    _in_codeblock self = true ->
    Forall (fun l => startswith "```" l = false) body ->
    for_each body process_one self =
    (Ok tt, with_lines (_lines self ++ body) self).
Proof.
  induction body as [|l body IH]; intros self C F.
  - destruct self as [cfg ind sec cb dt ls]. cbn. now rewrite app_nil_r.
  - inversion F as [|? ? Hl F']; subst.
    cbn [for_each]. unfold bind.
    assert (E : process_one l self = (Ok tt, with_lines (_lines self ++ [l]) self)).
    { destruct self as [cfg ind sec cb dt ls]. cbn in C. subst cb.
      unfold process_one, _process_codeblock. rewrite Hl. reflexivity. }
    rewrite E, IH by (assumption || (destruct self; exact C)).
    destruct self as [cfg ind sec cb dt ls]. cbn.
    unfold with_lines. cbn. now rewrite <- app_assoc.
Qed.

(** The closing line in a whole section: the entry after the fence is no
    longer rewritten. *)
Lemma fence_closing_line_section :
  fst (preprocess_section
         {| sig := None; title := "";
            content := unlines ["Args:"; "    x: first"; "```"; "code"; "```";
                                "    y: second"] |}
         (__init__ {| markdown_header_id := false |})) =
  Ok {| sig := None; title := "";
        content := unlines ["__Arguments__"; ""; "* __x__:  first"; "```"; "code";
                            "```"; "    y: second"] |}.
Proof. vm_compute. reflexivity. Qed.

End Fence.

(* ================================================================= *)
(** ** Section headers *)

Section Headers.

Lemma str_eqb_head (c d : ascii) (x y : str) :
  Ascii.eqb c d = false -> str_eqb (c :: x) (d :: y) = false.
Proof.
  intro H. unfold str_eqb.
  destruct (list_eq_dec ascii_dec (c :: x) (d :: y)) as [E|]; [|reflexivity].
  injection E as -> _. now rewrite Ascii.eqb_refl in H.
Qed.

(** The keys of the table are lower-case words and each has one value. *)
Lemma valid_sections_keys (k : str) (v : SectionName) :
  In (k, v) valid_sections ->
  Forall (fun c => between 97 122 (code c) = true) k /\ k <> [] /\
  dict_get k valid_sections = Some v.
Proof.
  unfold valid_sections. cbn [In]. intros H.
  repeat (destruct H as [H|H];
          [injection H as <- <-;
           split; [repeat constructor | split; [discriminate | reflexivity]] |]).
  contradiction.
Qed.

Lemma lower_letters (s alias : str) :
  lower s = alias ->
  Forall (fun c => between 97 122 (code c) = true) alias ->
  Forall (fun c => letter c = true) s.
Proof.
  intros <- H. unfold lower in H. rewrite Forall_map in H. exact H.
Qed.

(** A line that starts with a letter is none of the fence stage's. *)
Lemma codeblock_pass (c : ascii) (l : str) (self : Preprocessor) :
  letter c = true -> _in_codeblock self = false ->
  _process_codeblock (c :: l) self = (Ok (c :: l), self).
Proof.
  intros L H. destruct (letter_not_special c L) as [B _].
  destruct self as [cfg ind sec cb dt ls]. cbn in H. subst cb.
  unfold _process_codeblock. cbn [startswith].
  rewrite Ascii.eqb_sym, B. reflexivity.
Qed.

(** Nor does it open a transcript. *)
Lemma doctest_pass (c : ascii) (l : str) (self : Preprocessor) :
  letter c = true -> _in_doctest_codeblock self = false ->
  _process_doctest_codeblock (c :: l) self = (Ok (c :: l), self).
Proof.
  intros L H. destruct (letter_not_special c L) as [_ [G [D _]]].
  pose proof (letter_not_space c L) as S.
  destruct self as [cfg ind sec cb dt ls]. cbn in H. subst dt.
  unfold _process_doctest_codeblock, lstrip. cbn [dropwhile]. rewrite S.
  cbn [firstn str_in existsb].
  rewrite (@str_eqb_head c ">"%char), (@str_eqb_head c "."%char) by assumption.
  reflexivity.
Qed.

Lemma header_rstrip (s w : str) :
  Forall (fun c => is_space c = true) w ->
  rstrip (s ++ ":" ++ w) = s ++ ":".
Proof.
  intro H. change (s ++ ":" ++ w) with (s ++ [":"%char] ++ w).
  rewrite app_assoc, rstrip_spaces by exact H.
  now apply rstrip_keeps.
Qed.

Lemma match_header_colon (s : str) :
  s <> [] -> ~ In LF s -> Re.match_header (s ++ ":") = Some s.
Proof.
  intros N H. unfold Re.match_header.
  rewrite rev_app_distr. cbn [rev app Ascii.eqb Bool.eqb LF].
  cbn [rev app]. rewrite rev_app_distr. cbn [rev app Ascii.eqb Bool.eqb andb].
  assert (T : truthy (rev s) = true).
  { destruct s as [|c t]; [contradiction|]. cbn [rev].
    now destruct (rev t). }
  assert (C : contains LF (rev s) = false).
  { apply not_true_is_false. intro C. apply contains_In in C.
    apply H. now apply in_rev. }
  rewrite T, C. cbn. now rewrite rev_involutive.
Qed.

Lemma header_line (s w : str) (canonical : SectionName) (self : Preprocessor) :
  s <> [] ->
  Forall (fun c => letter c = true) s ->
  Forall (fun c => is_space c = true) w ->
  dict_get (lower s) valid_sections = Some canonical ->
  _process_line (s ++ ":" ++ w) self =
  (Ok ("__" ++ section_str canonical ++ "__" ++ [LF]),
   with_indent (-1) (with_current_section (Some canonical) self)).
Proof.
  intros N L W D.
  assert (NS : Forall (fun c => is_space c = false) s).
  { eapply Forall_impl; [|exact L]. apply letter_not_space. }
  assert (NL : ~ In LF s).
  { intro I. rewrite Forall_forall in L. specialize (L _ I).
    destruct (letter_not_special LF L) as [_ [_ [_ E]]]. discriminate E. }
  unfold _process_line.
  assert (R : rstrip (s ++ ":" ++ w) = s ++ ":") by now apply header_rstrip.
  assert (T : truthy (strip (s ++ ":" ++ w)) = true).
  { unfold strip. rewrite R. destruct s as [|c t]; [contradiction|].
    inversion NS as [|? ? Hc _]; subst.
    unfold lstrip. cbn [app dropwhile]. now rewrite Hc. }
  rewrite T, R, match_header_colon by assumption. cbn [negb].
  rewrite strip_none by exact NS. rewrite D. reflexivity.
Qed.

(** C3.  Outside fence and transcript, a line made of a key of the table
    in any letter case, a colon and then whitespace only sets the current
    section to the canonical name of the key and the baseline to -1, and
    the loop appends one line for it: the name between double underscores
    with a newline after it, which is the marker and a blank line in the
    joined text. *)
Theorem section_header_recognized
        (self : Preprocessor) (alias s w : str) (canonical : SectionName) :
  In (alias, canonical) valid_sections ->
  lower s = alias ->
  Forall (fun c => is_space c = true) w ->
  _in_codeblock self = false ->
  _in_doctest_codeblock self = false ->
  process_one (s ++ ":" ++ w) self =
  (Ok tt,
   with_lines (_lines self ++ ["__" ++ section_str canonical ++ "__" ++ [LF]])
     (with_indent (-1) (with_current_section (Some canonical) self))).
Proof.
  intros I E W C D.
  destruct (valid_sections_keys I) as [K [N G]].
  pose proof (@lower_letters s alias E K) as L.
  assert (N' : s <> []) by (intros ->; apply N; now rewrite <- E).
  destruct s as [|c t] eqn:Es; [contradiction|].
  assert (Lc : letter c = true) by now inversion L.
  unfold process_one, except_LineFinished, bind.
  cbn [app]. rewrite codeblock_pass, doctest_pass by assumption.
  change (c :: t ++ ":"%char :: w) with ((c :: t) ++ ":" ++ w).
  rewrite (@header_line (c :: t) w canonical self) by (assumption || now rewrite E).
  reflexivity.
Qed.

Lemma section_header_recognized_witness :
  process_one ("PaRaMs" ++ ":" ++ "  ") (__init__ {| markdown_header_id := false |}) =
  (Ok tt,
   with_lines ["__Arguments__" ++ [LF]]
     (with_indent (-1) (with_current_section (Some Arguments)
        (__init__ {| markdown_header_id := false |})))).
Proof.
  apply (@section_header_recognized
           (__init__ {| markdown_header_id := false |})
           "params" "PaRaMs" "  " Arguments).
  - cbn. tauto.
  - reflexivity.
  - repeat constructor.
  - reflexivity.
  - reflexivity.
Defined.

End Headers.

(* ================================================================= *)
(** ** The title of a section *)

Section Title.

Lemma replace_app (old : ascii) (new a b : str) :
  replace old new (a ++ b) = replace old new a ++ replace old new b.
Proof. unfold replace. apply flat_map_app. Qed.

Lemma escape_sig_app (a b : str) :
  escape_sig (a ++ b) = escape_sig a ++ escape_sig b.
Proof. unfold escape_sig. cbn [fold_left]. now rewrite !replace_app. Qed.

(** The three replacements in a row escape each character once: the
    backslashes are doubled first, before any is added. *)
Lemma escape_sig_char (c : ascii) :
  escape_sig [c] = if is_metachar c then ["\"%char; c] else [c].
Proof.
  unfold is_metachar.
  destruct (Ascii.eqb_spec c "\"%char) as [->|N1]; [reflexivity|].
  destruct (Ascii.eqb_spec c "*"%char) as [->|N2]; [reflexivity|].
  destruct (Ascii.eqb_spec c "_"%char) as [->|N3]; [reflexivity|].
  apply Ascii.eqb_neq in N1, N2, N3.
  unfold escape_sig, replace. cbn [fold_left flat_map app].
  rewrite N1. cbn [flat_map app]. rewrite N2. cbn [flat_map app].
  now rewrite N3.
Qed.

Lemma escape_sig_escaped (s : str) : escape_sig s = escaped s.
Proof.
  induction s as [|c t IH]; [reflexivity|].
  change (c :: t) with ([c] ++ t).
  rewrite escape_sig_app, IH, escape_sig_char.
  unfold escaped. cbn [flat_map app]. reflexivity.
Qed.

(** The parenthesis is not escaped, so that cutting at it commutes with
    the escaping. *)
Lemma text_before_escaped (s : str) :
  text_before "("%char (escaped s) = escaped (text_before "("%char s).
Proof.
  unfold text_before, escaped.
  induction s as [|c t IH]; [reflexivity|].
  cbn [flat_map takewhile].
  destruct (Ascii.eqb_spec c "("%char) as [->|N]; [reflexivity|].
  apply Ascii.eqb_neq in N. cbn [negb].
  destruct (is_metachar c) eqn:Mc;
    cbn [app takewhile Ascii.eqb Bool.eqb negb flat_map];
    rewrite ?N; cbn [negb app flat_map]; rewrite ?Mc; cbn [app];
    now rewrite IH.
Qed.

(** C7 (as the code has it).  For a signature that is not empty the title
    is the signature with each backslash, asterisk and underscore prefixed
    by a backslash; with the option [markdown_header_id] it ends with
    [  {#N}], where N is that escaped text up to its first parenthesis,
    which is the escaped form of the name that starts the signature. *)
Theorem title_of_signature (cfg : Config) (section : DocSection) (s : str) :
  sig section = Some s ->
  s <> [] ->
  section_title cfg section =
    escaped s ++
    (if markdown_header_id cfg
     then "  {#" ++ text_before "("%char (escaped s) ++ "}" else "")
  /\ text_before "("%char (escaped s) = escaped (text_before "("%char s).
Proof.
  intros E N. split; [|apply text_before_escaped].
  unfold section_title, before_paren. rewrite E.
  destruct s as [|c t]; [contradiction|]. cbn [truthy].
  rewrite split1_hd, escape_sig_escaped.
  destruct (markdown_header_id cfg); [reflexivity | now rewrite app_nil_r].
Qed.

Lemma title_of_signature_witness :
  section_title {| markdown_header_id := true |}
                {| sig := Some "my_func(*args)"; title := ""; content := "" |} =
    escaped "my_func(*args)" ++
    ("  {#" ++ text_before "("%char (escaped "my_func(*args)") ++ "}")
  /\ text_before "("%char (escaped "my_func(*args)") =
     escaped (text_before "("%char "my_func(*args)").
Proof.
  apply (@title_of_signature {| markdown_header_id := true |}
           {| sig := Some "my_func(*args)"; title := ""; content := "" |}
           "my_func(*args)").
  - reflexivity.
  - discriminate.
Defined.

(** C7 as stated fails: the anchor is cut from the escaped text, not from
    the signature, and differs from it when the name has an underscore. *)
Lemma title_anchor_raw_name_refuted :
  section_title {| markdown_header_id := true |}
                {| sig := Some "my_func(x)"; title := ""; content := "" |} =
    "my\_func(x)  {#my\_func}"
  /\ section_title {| markdown_header_id := true |}
                   {| sig := Some "my_func(x)"; title := ""; content := "" |} <>
     escaped "my_func(x)" ++ "  {#" ++ text_before "("%char "my_func(x)" ++ "}".
Proof. split; [reflexivity | vm_compute; discriminate]. Qed.

(** The title that [preprocess_section] returns is that one. *)
Lemma preprocess_section_title
      (section out : DocSection) (self self' : Preprocessor) :
  preprocess_section section self = (Ok out, self') ->
  title out = section_title (config self) section.
Proof.
  unfold preprocess_section. run.
  match goal with |- context [for_each ?l ?f ?st] =>
    destruct (for_each l f st) as [[u|e] st'] end.
  - intro H. injection H as <- _. reflexivity.
  - discriminate.
Qed.

End Title.

(* ================================================================= *)
(** ** No exception leaves [preprocess_section] *)

Section NoException.

(** The tuple assignment of the section branches never fails: the colon
    that the line has is still there after [strip]. *)
Lemma rewrite_entry_returns (fmt : str -> str -> str) (line : str)
      (self : Preprocessor) :
  exists out, rewrite_entry fmt line self = (Ok out, self).
Proof.
  unfold rewrite_entry. destruct (contains ":"%char line) eqn:C.
  - destruct (@split1_two ":"%char (strip line)
                (@contains_strip ":"%char line colon_not_space C)) as [a [b E]].
    rewrite E. run.
    destruct (truthy (strip a) && truthy (strip b)); eexists; reflexivity.
  - eexists; reflexivity.
Qed.

Lemma process_line_body_returns (line : str) (self : Preprocessor) :
  exists out self', _process_line_body line self = (Ok out, self').
Proof.
  unfold _process_line_body. rewrite indent_group.
  unfold bind at 1. unfold get at 1. unfold bind at 1.
  destruct (indent self =? -1)%Z;
    [| destruct (Z.of_nat (length (takewhile is_space line)) <? indent self)%Z ];
    run; try (eexists; eexists; reflexivity);
    destruct (_current_section self) as [[]|]; cbn iota beta;
    try match goal with
        | |- context [rewrite_entry ?f ?l ?st] =>
            destruct (rewrite_entry_returns f l st) as [out E]; rewrite E
        end;
    eexists; eexists; reflexivity.
Qed.

Lemma process_line_returns (line : str) (self : Preprocessor) :
  exists out self', _process_line line self = (Ok out, self').
Proof.
  unfold _process_line.
  destruct (negb (truthy (strip line))); [eexists; eexists; reflexivity|].
  destruct (Re.match_header (rstrip line)) as [g|];
    [|apply process_line_body_returns].
  destruct (dict_get (lower (strip g)) valid_sections);
    [eexists; eexists; reflexivity | apply process_line_body_returns].
Qed.

(** The two detectors raise nothing but [LineFinished]. *)
Lemma process_codeblock_finishes (line : str) (self : Preprocessor) :
  finishes_line (fst (_process_codeblock line self)).
Proof.
  destruct self as [cfg ind sec cb dt ls]. unfold _process_codeblock. run.
  destruct (startswith "```" line), cb; exact I.
Qed.

Lemma process_doctest_codeblock_finishes (line : str) (self : Preprocessor) :
  finishes_line (fst (_process_doctest_codeblock line self)).
Proof.
  destruct self as [cfg ind sec cb dt ls].
  unfold _process_doctest_codeblock. run.
  destruct dt; cbn [negb];
    repeat match goal with
           | |- context [if ?b then _ else _] => destruct b
           end; exact I.
Qed.

(** The loop body returns for every line: what a stage raises is
    [LineFinished], and the [try] of the loop catches it. *)
Lemma process_one_returns (line : str) (self : Preprocessor) :
  exists self', process_one line self = (Ok tt, self').
Proof.
  unfold process_one, except_LineFinished.
  unfold bind at 1.
  pose proof (process_codeblock_finishes line self) as F1.
  destruct (_process_codeblock line self) as [[l1|[]] s1]; cbn in F1;
    [ | eauto | contradiction ].
  unfold bind at 1.
  pose proof (process_doctest_codeblock_finishes l1 s1) as F2.
  destruct (_process_doctest_codeblock l1 s1) as [[l2|[]] s2]; cbn in F2;
    [ | eauto | contradiction ].
  unfold bind at 1.
  destruct (process_line_returns l2 s2) as [l3 [s3 E]]. rewrite E.
  eexists. reflexivity.
Qed.

Lemma for_each_returns (l : list str) (self : Preprocessor) :
  exists self', for_each l process_one self = (Ok tt, self').
Proof.
  revert self. induction l as [|x r IH]; intro self; cbn [for_each].
  - eexists. reflexivity.
  - unfold bind. destruct (process_one_returns x self) as [s1 E]. rewrite E.
    apply IH.
Qed.

(** C8.  [preprocess_section] returns for every section and from every
    state of the processor, and so does the loop body for every line:
    [LineFinished] does not leave it, and nothing else is raised. *)
Theorem preprocess_section_returns :
  (forall (section : DocSection) (self : Preprocessor),
      exists out self', preprocess_section section self = (Ok out, self'))
  /\ (forall (line : str) (self : Preprocessor),
         exists self', process_one line self = (Ok tt, self')).
Proof.
  split; [|apply process_one_returns].
  intros section self. unfold preprocess_section. run.
  match goal with |- context [for_each ?l process_one ?st] =>
    destruct (for_each_returns l st) as [s1 E] end.
  rewrite E. eauto.
Qed.

(** The inputs that the specification names. *)
Lemma preprocess_section_edge_inputs :
  let run c := fst (preprocess_section {| sig := None; title := ""; content := c |}
                      (__init__ {| markdown_header_id := false |})) in
  run "" = Ok {| sig := None; title := ""; content := "" |}
  /\ run ("   " ++ [TAB]) = Ok {| sig := None; title := ""; content := "   " ++ [TAB] |}
  /\ run (unlines ["```"; "Args:"; "  x: y"]) =
     Ok {| sig := None; title := ""; content := unlines ["```"; "Args:"; "  x: y"] |}.
Proof. cbv zeta. repeat split. Qed.

End NoException.

(* ================================================================= *)
(** ** The reference pass *)

Section References.

(** C6.  [#foo.bar() does X.] becomes [`foo.bar()` does X.], and [#foo.]
    becomes [`foo`.] with the dot after the code span. *)
Theorem refs_examples :
  _preprocess_refs "#foo.bar() does X." = "`foo.bar()` does X."
  /\ _preprocess_refs "#foo." = "`foo`.".
Proof. split; reflexivity. Qed.

(** The same two texts as the content of a section. *)
Lemma refs_examples_section :
  let run c := fst (preprocess_section {| sig := None; title := ""; content := c |}
                      (__init__ {| markdown_header_id := false |})) in
  run "#foo.bar() does X." =
    Ok {| sig := None; title := ""; content := "`foo.bar()` does X." |}
  /\ run "#foo." = Ok {| sig := None; title := ""; content := "`foo`." |}.
Proof. cbv zeta. split; reflexivity. Qed.

(** *** The scan needs no more steps than the text has characters *)

Lemma match_ref_shorter (prefix s repl rest : str) :
  match_ref prefix s = Some (repl, rest) -> length rest <= length s.
Proof.
  unfold match_ref.
  pose proof (dropwhile_length Re.is_ref_char s) as E.
  destruct (truthy (takewhile Re.is_ref_char s)); [|discriminate].
  destruct (startswith "()" (dropwhile Re.is_ref_char s));
    intro H; injection H as _ <-; [|exact E].
  destruct (dropwhile Re.is_ref_char s) as [|x [|y d]]; cbn [length] in *; lia.
Qed.

Lemma match_at_shorter (at_start : bool) (s repl rest : str) :
  match_at at_start s = Some (repl, rest) -> length rest < length s.
Proof.
  unfold match_at.
  destruct at_start, s as [|c [|h t]]; cbn [length];
    repeat match goal with
           | |- context [if ?b then _ else _] => destruct b
           | |- context [match match_ref ?p ?x with _ => _ end] =>
               let E := fresh "E" in
               destruct (match_ref p x) as [[? ?]|] eqn:E;
               [apply match_ref_shorter in E; cbn [length] in E|]
           end;
    try discriminate;
    intro H;
    try (injection H as _ <-; cbn [length] in *; lia);
    try (apply match_ref_shorter in H; cbn [length] in H; lia).
Qed.

Lemma sub_refs_fuel (f1 : nat) :
  forall (f2 : nat) (at_start : bool) (s : str),
    length s <= f1 -> length s <= f2 ->
    sub_refs f1 at_start s = sub_refs f2 at_start s.
Proof.
  induction f1 as [|f1 IH]; intros f2 st s H1 H2.
  - destruct s; [|cbn in H1; lia]. destruct f2, st; reflexivity.
  - destruct f2 as [|f2].
    + destruct s; [|cbn in H2; lia]. destruct st; reflexivity.
    + cbn [sub_refs].
      destruct (match_at st s) as [[r rest]|] eqn:E.
      * apply match_at_shorter in E. f_equal. apply IH; lia.
      * destruct s as [|c t]; [reflexivity|]. cbn [length] in *.
        f_equal. apply IH; lia.
Qed.

(** One step of the scan. *)
Lemma refs_from_step (at_start : bool) (s : str) :
  refs_from at_start s =
  match match_at at_start s with
  | Some (replacement, rest) => replacement ++ refs_from false rest
  | None =>
      match s with
      | [] => []
      | c :: t => c :: refs_from false t
      end
  end.
Proof.
  unfold refs_from. destruct s as [|c t].
  - destruct at_start; reflexivity.
  - cbn [length sub_refs].
    destruct (match_at at_start (c :: t)) as [[r rest]|] eqn:E; [|reflexivity].
    apply match_at_shorter in E. cbn [length] in E.
    f_equal. apply sub_refs_fuel; lia.
Qed.

(** *** A match does not reach over the end of a line *)

Lemma match_ref_line (prefix a b : str) :
  match_ref prefix (a ++ LF :: b) =
  match match_ref prefix a with
  | Some (replacement, rest) => Some (replacement, rest ++ LF :: b)
  | None => None
  end.
Proof.
  unfold match_ref.
  rewrite takewhile_stop, dropwhile_stop by reflexivity.
  destruct (truthy (takewhile Re.is_ref_char a)); [|reflexivity].
  destruct (dropwhile Re.is_ref_char a) as [|x [|y d]]; cbn [app startswith skipn].
  - reflexivity.
  - destruct (Ascii.eqb "("%char x); reflexivity.
  - destruct (Ascii.eqb "("%char x && (Ascii.eqb ")"%char y && true)); reflexivity.
Qed.

Lemma match_at_line (at_start : bool) (a b : str) :
  match_at at_start (a ++ LF :: b) =
  match match_at at_start a with
  | Some (replacement, rest) => Some (replacement, rest ++ LF :: b)
  | None => None
  end.
Proof.
  unfold match_at. destruct a as [|c [|h t]]; cbn [app].
  - destruct at_start, b; reflexivity.
  - change (LF :: b) with ([] ++ LF :: b) at 1.
    rewrite (match_ref_line "" [] b).
    change (Ascii.eqb LF "#"%char) with false. rewrite andb_false_r.
    destruct at_start; [destruct (Ascii.eqb c "#"%char)|]; reflexivity.
  - change (h :: t ++ LF :: b) with ((h :: t) ++ LF :: b).
    rewrite !match_ref_line.
    destruct at_start; [destruct (Ascii.eqb c "#"%char)|];
      try destruct (match_ref "" (h :: t)) as [[? ?]|];
      try reflexivity;
      destruct ((Ascii.eqb c " "%char || Ascii.eqb c TAB) && Ascii.eqb h "#"%char);
      reflexivity.
Qed.

(** The pass works line by line, and only the first line is at the start
    of the text. *)
Lemma refs_from_line (n : nat) :
  forall (a : str), length a <= n ->
  forall (at_start : bool) (b : str),
    refs_from at_start (a ++ LF :: b) =
    refs_from at_start a ++ LF :: refs_from false b.
Proof.
  induction n as [|n IH]; intros a Ha st b.
  - destruct a; [|cbn in Ha; lia].
    rewrite (refs_from_step st ([] ++ LF :: b)), match_at_line.
    destruct st; reflexivity.
  - rewrite (refs_from_step st (a ++ LF :: b)), (refs_from_step st a), match_at_line.
    destruct (match_at st a) as [[r rest]|] eqn:E.
    + apply match_at_shorter in E.
      rewrite IH by lia. now rewrite app_assoc.
    + destruct a as [|c t]; [reflexivity|]. cbn [app length] in *.
      rewrite IH by lia. reflexivity.
Qed.

Lemma refs_inside_hash (t : str) :
  refs_inside ("#"%char :: t) = "#"%char :: refs_inside t.
Proof.
  unfold refs_inside. rewrite refs_from_step. unfold match_at.
  destruct t as [|h t]; reflexivity.
Qed.

Lemma refs_inside_symbol (sym rest : str) :
  Forall (fun c => Re.is_ref_char c = true) sym ->
  refs_inside (sym ++ rest) = sym ++ refs_inside rest.
Proof.
  induction 1 as [|c sym Hc _ IH]; [reflexivity|].
  unfold refs_inside in *. cbn [app]. rewrite refs_from_step.
  replace (match_at false (c :: sym ++ rest)) with (@None (str * str)).
  - now rewrite IH.
  - unfold match_at. rewrite (ref_char_not_blank c Hc).
    now destruct (sym ++ rest).
Qed.

(** C10.  In the text given to the pass, a [#] that starts a line other
    than the first, and the symbol after it, stay as they are: what comes
    before the line break is rewritten as the text it is, and what comes
    after the symbol is rewritten as text inside the content. *)
Theorem refs_line_start_unrewritten (pre sym post : str) :
  Forall (fun c => Re.is_ref_char c = true) sym ->
  _preprocess_refs (pre ++ LF :: "#"%char :: sym ++ post) =
  _preprocess_refs pre ++ LF :: "#"%char :: sym ++ refs_inside post.
Proof.
  intro H. change _preprocess_refs with (refs_from true).
  rewrite (@refs_from_line (length pre) pre (le_n _)).
  change (refs_from false) with refs_inside.
  now rewrite refs_inside_hash, refs_inside_symbol.
Qed.

Lemma refs_line_start_unrewritten_witness :
  _preprocess_refs ("#a.b() and" ++ LF :: "#"%char :: "foo.bar" ++ "() or #c") =
  _preprocess_refs "#a.b() and" ++ LF :: "#"%char :: "foo.bar" ++
    refs_inside "() or #c".
Proof.
  apply (@refs_line_start_unrewritten "#a.b() and" "foo.bar" "() or #c").
  repeat constructor.
Defined.

(** A whole section with a reference at the start of its second line: the
    first is rewritten, the second is not. *)
Lemma refs_line_start_section :
  fst (preprocess_section
         {| sig := None; title := ""; content := unlines ["#foo is"; "#bar here"] |}
         (__init__ {| markdown_header_id := false |})) =
  Ok {| sig := None; title := ""; content := unlines ["`foo` is"; "#bar here"] |}.
Proof. reflexivity. Qed.

End References.

(* ================================================================= *)
(** ** What a processor keeps from one section to the next *)

Section Reuse.

(** X23.  [preprocess_section] assigns [_current_section], [_in_codeblock],
    [_in_doctest_codeblock] and [_lines] anew: of the state it starts
    from, only [config] and [indent] can show in what it returns. *)
Lemma preprocess_section_reset (section : DocSection) (self other : Preprocessor) :
  config self = config other ->
  indent self = indent other ->
  preprocess_section section self = preprocess_section section other.
Proof.
  destruct self as [cfg ind sec cb dt ls], other as [cfg' ind' sec' cb' dt' ls'].
  cbn. intros <- <-. unfold preprocess_section. run. reflexivity.
Qed.

(** C9 fails on the code: [indent] is set by the constructor only.  A
    processor that has preprocessed the section [Args:], [    x: int] keeps
    the baseline 4, and cuts four characters from the line [      hello]
    of the next section, which a new processor returns whole. *)
Theorem indent_kept_between_sections :
  let section := {| sig := None; title := ""; content := "      hello" |} in
  let cfg := {| markdown_header_id := false |} in
  indent (used_processor cfg) = 4%Z
  /\ fst (preprocess_section section (__init__ cfg)) =
     Ok {| sig := None; title := ""; content := "      hello" |}
  /\ fst (preprocess_section section (used_processor cfg)) =
     Ok {| sig := None; title := ""; content := "  hello" |}.
Proof. cbv zeta. repeat split. Qed.

End Reuse.

(* ================================================================= *)
(** ** More on the string operations *)

Section MoreStringFacts.

Lemma dropwhile_nil (p : ascii -> bool) (s : str) :
  dropwhile p s = [] -> Forall (fun c => p c = true) s.
Proof.
  induction s as [|c t IH]; cbn; [constructor|].
  destruct (p c) eqn:E; [|discriminate]. intro H. constructor; auto.
Qed.

Lemma dropwhile_head (p : ascii -> bool) (s : str) (c : ascii) (t : str) :
  dropwhile p s = c :: t -> p c = false.
Proof.
  induction s as [|x r IH]; cbn; [discriminate|].
  destruct (p x) eqn:E; [exact IH|]. intro H. injection H as <- _. exact E.
Qed.

Lemma takewhile_all (p : ascii -> bool) (s : str) :
  Forall (fun c => p c = true) (takewhile p s).
Proof.
  induction s as [|c t IH]; cbn; [constructor|].
  destruct (p c) eqn:E; constructor; assumption.
Qed.

Lemma takewhile_prefix (p : ascii -> bool) (w t : str) :
  Forall (fun c => p c = true) w ->
  match t with [] => True | c :: _ => p c = false end ->
  takewhile p (w ++ t) = w /\ dropwhile p (w ++ t) = t.
Proof.
  intros W T. induction W as [|c w Hc _ IH]; cbn.
  - destruct t as [|c t]; [now split|]. cbn. rewrite T. now split.
  - rewrite Hc. destruct IH as [-> ->]. now split.
Qed.

(** A line that [strip] empties is whitespace throughout. *)
Lemma blank_all_space (line : str) :
  truthy (strip line) = false -> Forall (fun c => is_space c = true) line.
Proof.
  unfold strip, lstrip, rstrip. intro H.
  destruct (dropwhile is_space (rev line)) as [|c t] eqn:E.
  - apply dropwhile_nil in E. apply Forall_rev in E.
    now rewrite rev_involutive in E.
  - exfalso. pose proof (dropwhile_head _ _ E) as Hc.
    cbn [rev] in H.
    destruct (dropwhile is_space (rev t ++ [c])) as [|x r] eqn:D; [|discriminate].
    apply dropwhile_nil in D. rewrite Forall_app in D. destruct D as [_ D].
    inversion D; congruence.
Qed.

Lemma all_space_blank (line : str) :
  Forall (fun c => is_space c = true) line -> strip line = [].
Proof.
  intro H. unfold strip, lstrip, rstrip.
  rewrite <- (app_nil_r (rev line)), dropwhile_all by now apply Forall_rev.
  reflexivity.
Qed.

Lemma lstrip_all_space (line : str) :
  Forall (fun c => is_space c = true) line -> lstrip line = [].
Proof.
  intro H. unfold lstrip. rewrite <- (app_nil_r line), dropwhile_all by exact H.
  reflexivity.
Qed.

Lemma str_eqb_eq (a b : str) : str_eqb a b = true <-> a = b.
Proof.
  unfold str_eqb. destruct (list_eq_dec ascii_dec a b); split;
    congruence.
Qed.

Lemma space_not_backtick (c : ascii) :
  is_space c = true -> Ascii.eqb "`"%char c = false.
Proof.
  intro H. destruct (Ascii.eqb_spec "`"%char c) as [<-|]; [discriminate H|reflexivity].
Qed.

(** The indentation of a line, as the transcript detector slices it. *)
Lemma leading_slice (line : str) :
  firstn (length line - length (lstrip line)) line = takewhile is_space line.
Proof.
  unfold lstrip.
  pose proof (takewhile_dropwhile is_space line) as E.
  set (w := takewhile is_space line) in *.
  set (d := dropwhile is_space line) in *.
  rewrite <- E at 1 2. rewrite length_app.
  replace (length w + length d - length d) with (length w + 0) by lia.
  rewrite firstn_app_2. cbn. now rewrite app_nil_r.
Qed.

Lemma expand_tabs_eq (line : str) :
  expand_tabs line =
  replace TAB (spaces 8) (takewhile is_space line) ++ lstrip line.
Proof.
  unfold expand_tabs. rewrite leading_slice. f_equal.
  unfold lstrip.
  pose proof (takewhile_dropwhile is_space line) as E.
  rewrite <- E at 2. rewrite skipn_app, skipn_all, Nat.sub_diag. reflexivity.
Qed.

End MoreStringFacts.

(* ================================================================= *)
(** ** Blank lines and transcript blocks *)

Section TranscriptBlocks.

Lemma blank_not_marker (line : str) :
  truthy (strip line) = false -> is_marker line = false.
Proof.
  intro H. apply blank_all_space in H. unfold is_marker.
  destruct H as [|c t Hc _]; [reflexivity|].
  cbn [startswith]. now rewrite (space_not_backtick c Hc).
Qed.

Lemma blank_not_prompt (line : str) :
  truthy (strip line) = false -> is_prompt line = false.
Proof.
  intro H. apply blank_all_space in H. unfold is_prompt.
  now rewrite lstrip_all_space.
Qed.

Lemma prompt_not_marker (line : str) :
  is_prompt line = true -> is_marker line = false.
Proof.
  unfold is_prompt, is_marker, lstrip. destruct line as [|c t]; [reflexivity|].
  cbn [dropwhile startswith]. destruct (is_space c) eqn:S.
  - intros _. now rewrite (space_not_backtick c S).
  - cbn [firstn str_in existsb]. rewrite !orb_true_iff, !str_eqb_eq.
    intros [H|[H|H]]; try discriminate H; injection H as -> _; reflexivity.
Qed.

(** With the fence closed, a line that is no marker goes to the two
    other stages. *)
Lemma process_one_fence_closed (line : str) (self : Preprocessor) :
  is_marker line = false -> _in_codeblock self = false ->
  process_one line self = after_fence_stage line self.
Proof.
  destruct self as [cfg ind sec cb dt ls]. unfold is_marker. cbn [_in_codeblock].
  intros H ->. unfold process_one, after_fence_stage, _process_codeblock.
  rewrite H. reflexivity.
Qed.

Lemma doctest_stage_open (line : str) (self : Preprocessor) :
  _in_doctest_codeblock self = false -> is_prompt line = true ->
  _process_doctest_codeblock line self =
  (Raised LineFinished,
   with_lines (_lines self ++ ["```python"; expand_tabs line])
              (with_in_doctest_codeblock true self)).
Proof.
  destruct self as [cfg ind sec cb dt ls]. cbn [_in_doctest_codeblock _lines].
  intros -> H.
  unfold _process_doctest_codeblock. cbv zeta.
  change (str_in (firstn 4 (lstrip line)) [">>> "; "... "]) with (is_prompt line).
  rewrite H. run. cbn [negb]. cbv beta.
  cbn [config indent _current_section _in_codeblock _in_doctest_codeblock _lines].
  unfold expand_tabs. cbv zeta. now rewrite <- app_assoc.
Qed.

Lemma doctest_stage_inside (line : str) (self : Preprocessor) :
  _in_doctest_codeblock self = true -> truthy (strip line) = true ->
  _process_doctest_codeblock line self =
  (Raised LineFinished, with_lines (_lines self ++ [transcript_line line]) self).
Proof.
  destruct self as [cfg ind sec cb dt ls]. cbn [_in_doctest_codeblock _lines].
  intros -> H.
  unfold _process_doctest_codeblock, transcript_line. cbv zeta.
  change (str_in (firstn 4 (lstrip line)) [">>> "; "... "]) with (is_prompt line).
  rewrite H. cbn [negb].
  destruct (is_prompt line); [reflexivity|].
  destruct (str_eqb (strip line) "<BLANKLINE>"); reflexivity.
Qed.

Lemma doctest_stage_close (line : str) (self : Preprocessor) :
  _in_doctest_codeblock self = true -> truthy (strip line) = false ->
  _process_doctest_codeblock line self =
  (Ok line, with_lines (_lines self ++ ["```"])
              (with_in_doctest_codeblock false self)).
Proof.
  destruct self as [cfg ind sec cb dt ls]. cbn [_in_doctest_codeblock _lines].
  intros -> H.
  unfold _process_doctest_codeblock. cbv zeta.
  change (str_in (firstn 4 (lstrip line)) [">>> "; "... "]) with (is_prompt line).
  rewrite (blank_not_prompt line H), H.
  assert (E : strip line = []) by (destruct (strip line); [reflexivity|discriminate]).
  rewrite E. reflexivity.
Qed.

Lemma doctest_stage_outside (line : str) (self : Preprocessor) :
  _in_doctest_codeblock self = false -> is_prompt line = false ->
  _process_doctest_codeblock line self = (Ok line, self).
Proof.
  destruct self as [cfg ind sec cb dt ls]. cbn [_in_doctest_codeblock _lines].
  intros -> H.
  unfold _process_doctest_codeblock. cbv zeta.
  change (str_in (firstn 4 (lstrip line)) [">>> "; "... "]) with (is_prompt line).
  rewrite H. reflexivity.
Qed.

(** X3.  Outside fence and transcript a line of whitespace only, or the empty
    line, is appended as it came and changes nothing else: it neither ends
    the section nor sets its baseline. *)
Theorem blank_line_passes (line : str) (self : Preprocessor) :
  truthy (strip line) = false ->
  _in_codeblock self = false ->
  _in_doctest_codeblock self = false ->
  process_one line self = (Ok tt, with_lines (_lines self ++ [line]) self).
Proof.
  intros B C D.
  rewrite process_one_fence_closed by (apply blank_not_marker; assumption) || assumption.
  unfold after_fence_stage, except_LineFinished, bind.
  rewrite doctest_stage_outside by (apply blank_not_prompt; assumption) || assumption.
  rewrite process_line_blank by assumption. reflexivity.
Qed.

Lemma blank_line_passes_witness :
  let self := with_indent (-1) (with_current_section (Some Returns)
                (__init__ {| markdown_header_id := false |})) in
  process_one ("  " ++ [TAB]) self =
  (Ok tt, with_lines (_lines self ++ ["  " ++ [TAB]]) self).
Proof.
  intro self. apply (@blank_line_passes ("  " ++ [TAB]) self); reflexivity.
Defined.

Lemma transcript_lines_run (body : list str) :
  forall self : Preprocessor,
    _in_codeblock self = false ->
    _in_doctest_codeblock self = true ->
    Forall (fun l => truthy (strip l) = true /\ is_marker l = false) body ->
    for_each body process_one self =
    (Ok tt, with_lines (_lines self ++ map transcript_line body) self).
Proof.
  induction body as [|l body IH]; intros self C D F.
  - destruct self as [cfg ind sec cb dt ls]. cbn. now rewrite app_nil_r.
  - inversion F as [|? ? [B M] F']; subst.
    cbn [for_each map]. unfold bind.
    rewrite process_one_fence_closed by assumption.
    unfold after_fence_stage, except_LineFinished, bind.
    rewrite doctest_stage_inside by assumption.
    rewrite IH by (assumption || (destruct self; assumption)).
    destruct self as [cfg ind sec cb dt ls]. unfold with_lines. cbn.
    now rewrite <- app_assoc.
Qed.

(** X4.  While a transcript is open and the fence is closed, lines with content
    that are no markers are all the transcript's: each is appended with the
    tabs of its indentation expanded, or as the empty line when it is
    [<BLANKLINE>]; the section and its baseline are not touched, whatever
    the lines look like. *)
Theorem transcript_lines_appended (body : list str) (self : Preprocessor) :
  _in_codeblock self = false ->
  _in_doctest_codeblock self = true ->
  Forall (fun l => truthy (strip l) = true /\ is_marker l = false) body ->
  for_each body process_one self =
  (Ok tt, with_lines (_lines self ++ map transcript_line body) self).
Proof. apply transcript_lines_run. Qed.

Lemma transcript_lines_appended_witness :
  let self := with_in_doctest_codeblock true
                (__init__ {| markdown_header_id := false |}) in
  for_each ["Args:"; TAB :: "... x"; " <BLANKLINE> "] process_one self =
  (Ok tt, with_lines ["Args:"; "        ... x"; ""] self).
Proof.
  intro self.
  apply (@transcript_lines_appended ["Args:"; TAB :: "... x"; " <BLANKLINE> "] self);
    [reflexivity | reflexivity | repeat constructor].
Defined.

(** X5.  A transcript block: a prompt line opens it, lines with content go on
    with it and a blank line closes it.  The output is the block between
    [```python] and [```], then the blank line as it came; at the end the
    processor is in the state it had before, but for the output. *)
Theorem transcript_block_wrapped
        (first : str) (body : list str) (blank : str) (self : Preprocessor) :
  _in_codeblock self = false ->
  _in_doctest_codeblock self = false ->
  is_prompt first = true ->
  Forall (fun l => truthy (strip l) = true /\ is_marker l = false) body ->
  truthy (strip blank) = false ->
  for_each (first :: body ++ [blank]) process_one self =
  (Ok tt,
   with_lines (_lines self ++
               "```python" :: expand_tabs first :: map transcript_line body ++
               ["```"; blank])
              self).
Proof.
  intros C D P F B.
  cbn [for_each]. unfold bind at 1.
  rewrite process_one_fence_closed by (apply prompt_not_marker; assumption) || assumption.
  unfold after_fence_stage at 1, except_LineFinished, bind at 1.
  rewrite doctest_stage_open by assumption.
  set (opened := with_lines _ _).
  assert (Co : _in_codeblock opened = false) by (destruct self; assumption).
  assert (Do : _in_doctest_codeblock opened = true) by (destruct self; reflexivity).
  assert (S : forall (l : list str) (st : Preprocessor),
             for_each (l ++ [blank]) process_one st =
             (for_each l process_one ;;; process_one blank) st).
  { induction l as [|x l IHl]; intro st; cbn [for_each app]; unfold bind, ret.
    - destruct (process_one blank st) as [[[]|e] st']; reflexivity.
    - destruct (process_one x st) as [[u|e] st']; [apply IHl | reflexivity]. }
  rewrite S. unfold bind at 1.
  rewrite transcript_lines_run by assumption.
  set (filled := with_lines _ opened).
  assert (Cf : _in_codeblock filled = false) by (destruct self; assumption).
  assert (Df : _in_doctest_codeblock filled = true) by (destruct self; reflexivity).
  rewrite process_one_fence_closed by (apply blank_not_marker; assumption) || assumption.
  unfold after_fence_stage, except_LineFinished, bind.
  rewrite doctest_stage_close by assumption.
  rewrite process_line_blank by assumption.
  subst filled opened. destruct self as [cfg ind sec cb dt ls].
  cbn in C, D. subst cb dt. unfold with_lines, with_in_doctest_codeblock. cbn.
  repeat rewrite <- app_assoc. reflexivity.
Qed.

Lemma transcript_block_wrapped_witness :
  let self := with_indent 4 (with_current_section (Some Arguments)
                (__init__ {| markdown_header_id := false |})) in
  for_each ("  >>> f(1)" :: [TAB :: "...   + 2"; "Returns:"; "<BLANKLINE>"; "3"] ++ [" "])
           process_one self =
  (Ok tt,
   with_lines (_lines self ++
               "```python" :: expand_tabs "  >>> f(1)" ::
               map transcript_line [TAB :: "...   + 2"; "Returns:"; "<BLANKLINE>"; "3"] ++
               ["```"; " "])
              self).
Proof.
  intro self.
  apply (@transcript_block_wrapped "  >>> f(1)"
           [TAB :: "...   + 2"; "Returns:"; "<BLANKLINE>"; "3"] " " self);
    try reflexivity.
  repeat constructor.
Defined.

End TranscriptBlocks.

(* ================================================================= *)
(** ** What a line does to the state *)

Section LineEffects.

Lemma process_line_body_eq (line : str) (self : Preprocessor) :
  _process_line_body line self =
  section_rewrite (_current_section (indent_check line self))
                  (slice_from (indent (indent_check line self)) line)
                  (indent_check line self).
Proof.
  unfold _process_line_body, indent_check, leading_whitespace.
  rewrite indent_group. run.
  destruct (indent self =? -1)%Z;
    [| destruct (Z.of_nat (length (takewhile is_space line)) <? indent self)%Z ];
    run; try reflexivity;
    destruct (_current_section self) as [[]|]; reflexivity.
Qed.

Lemma section_rewrite_returns (sec : option SectionName) (line : str)
      (self : Preprocessor) :
  exists out, section_rewrite sec line self = (Ok out, self).
Proof.
  destruct sec as [s|]; cbn; [apply rewrite_entry_returns | eexists; reflexivity].
Qed.

(** The section rewriter changes the section and its baseline only. *)
Lemma process_line_effect (line : str) (self : Preprocessor) :
  exists out i sec,
    _process_line line self =
      (Ok out, with_indent i (with_current_section sec self))
    /\ ((-1 <= indent self)%Z -> (-1 <= i)%Z).
Proof.
  assert (Id : self = with_indent (indent self)
                        (with_current_section (_current_section self) self))
    by now destruct self.
  assert (Body : exists out i sec,
             _process_line_body line self =
               (Ok out, with_indent i (with_current_section sec self))
             /\ ((-1 <= indent self)%Z -> (-1 <= i)%Z)).
  { rewrite process_line_body_eq.
    destruct (section_rewrite_returns
                (_current_section (indent_check line self))
                (slice_from (indent (indent_check line self)) line)
                (indent_check line self)) as [out E].
    rewrite E. exists out. unfold indent_check.
    destruct (indent self =? -1)%Z;
      [| destruct (Z.of_nat (leading_whitespace line) <? indent self)%Z ].
    - exists (Z.of_nat (leading_whitespace line)), (_current_section self).
      split; [now destruct self | lia].
    - exists 0%Z, None. split; [now destruct self | lia].
    - exists (indent self), (_current_section self). split; [now f_equal | tauto]. }
  unfold _process_line.
  destruct (negb (truthy (strip line))).
  - exists line, (indent self), (_current_section self).
    split; [unfold ret; now f_equal | tauto].
  - destruct (Re.match_header (rstrip line)) as [g|]; [|exact Body].
    destruct (dict_get (lower (strip g)) valid_sections) as [canonical|];
      [|exact Body].
    eexists. exists (-1)%Z, (Some canonical). split; [reflexivity | lia].
Qed.

Lemma codeblock_stage_cases (line : str) (self : Preprocessor) :
  _process_codeblock line self =
  if fence_after line self
  then (Raised LineFinished,
        with_lines (_lines self ++ [line]) (with_in_codeblock true self))
  else (Ok line, with_in_codeblock false self).
Proof.
  destruct self as [cfg ind sec cb dt ls].
  unfold fence_after, _process_codeblock. run.
  destruct (startswith "```" line), cb; reflexivity.
Qed.

(** The transcript detector appends at most two lines and changes nothing
    but its own flag; a line it returns has got one line at most. *)
Lemma doctest_stage_effect (line : str) (self : Preprocessor) :
  exists r new b,
    _process_doctest_codeblock line self =
      (r, with_lines (_lines self ++ new) (with_in_doctest_codeblock b self))
    /\ ((r = Raised LineFinished /\ 1 <= length new <= 2)
        \/ (r = Ok line /\ length new <= 1)).
Proof.
  assert (Id : forall st, st = with_lines (_lines st ++ [])
                  (with_in_doctest_codeblock (_in_doctest_codeblock st) st)).
  { intros [cfg ind sec cb dt ls]. unfold with_lines. cbn. now rewrite app_nil_r. }
  assert (Same : forall st, with_in_doctest_codeblock (_in_doctest_codeblock st) st = st)
    by now intros [].
  destruct (_in_doctest_codeblock self) eqn:D.
  - destruct (truthy (strip line)) eqn:B.
    + rewrite doctest_stage_inside by assumption.
      exists (Raised LineFinished), [transcript_line line], true.
      split; [now rewrite <- D, Same | left; cbn; split; [reflexivity | lia]].
    + rewrite doctest_stage_close by assumption.
      exists (Ok line), ["```"], false. split; [reflexivity | right; cbn; split; [reflexivity | lia]].
  - destruct (is_prompt line) eqn:P.
    + rewrite doctest_stage_open by assumption.
      exists (Raised LineFinished), ["```python"; expand_tabs line], true.
      split; [reflexivity | left; cbn; split; [reflexivity | lia]].
    + rewrite doctest_stage_outside by assumption.
      exists (Ok line), [], false.
      split; [rewrite <- D; now rewrite <- Id | right; cbn; split; [reflexivity | lia]].
Qed.

(** What the loop body does to the state for one line. *)
Lemma process_one_effect (line : str) (self : Preprocessor) :
  exists self',
    process_one line self = (Ok tt, self')
    /\ config self' = config self
    /\ _in_codeblock self' = fence_after line self
    /\ (exists new, _lines self' = _lines self ++ new /\ 1 <= length new <= 2)
    /\ ((-1 <= indent self)%Z -> (-1 <= indent self')%Z).
Proof.
  unfold process_one, except_LineFinished. unfold bind at 1.
  rewrite codeblock_stage_cases.
  destruct (fence_after line self) eqn:F.
  - eexists. split; [reflexivity|]. destruct self as [cfg ind sec cb dt ls].
    cbn. repeat split; try tauto.
    exists [line]. cbn. split; [reflexivity | lia].
  - unfold bind at 1.
    destruct (doctest_stage_effect line (with_in_codeblock false self))
      as [r [new [b [E [[-> L]|[-> L]]]]]]; rewrite E.
    + eexists. split; [reflexivity|]. destruct self as [cfg ind sec cb dt ls].
      cbn. repeat split; try tauto. now exists new.
    + unfold bind at 1.
      match goal with |- context [_process_line line ?st] =>
        destruct (process_line_effect line st) as [out [i [s [P I]]]] end.
      rewrite P. eexists. split; [reflexivity|].
      destruct self as [cfg ind sec cb dt ls]. cbn in *.
      repeat split; try tauto.
      exists (new ++ [out]). rewrite app_assoc. split; [reflexivity|].
      rewrite length_app. cbn. lia.
Qed.

End LineEffects.

(* ================================================================= *)
(** ** Invariants of the loop *)

Section LoopInvariants.

Lemma fence_after_xorb (line : str) (self : Preprocessor) :
  fence_after line self = xorb (_in_codeblock self) (is_marker line).
Proof.
  unfold fence_after, is_marker.
  destruct (startswith "```" line), (_in_codeblock self); reflexivity.
Qed.

Lemma odd_markers_cons (l : str) (r : list str) :
  Nat.odd (length (filter is_marker (l :: r))) =
  xorb (is_marker l) (Nat.odd (length (filter is_marker r))).
Proof.
  cbn [filter]. destruct (is_marker l); cbn [length xorb]; [|reflexivity].
  now rewrite Nat.odd_succ, <- Nat.negb_odd.
Qed.

Lemma for_each_effect (lines : list str) :
  forall self : Preprocessor,
  exists self',
    for_each lines process_one self = (Ok tt, self')
    /\ config self' = config self
    /\ _in_codeblock self' =
       xorb (_in_codeblock self) (Nat.odd (length (filter is_marker lines)))
    /\ (exists new, _lines self' = _lines self ++ new /\
                    length lines <= length new <= 2 * length lines)
    /\ ((-1 <= indent self)%Z -> (-1 <= indent self')%Z).
Proof.
  induction lines as [|l r IH]; intro self.
  - exists self. cbn. repeat split; try tauto.
    + now destruct (_in_codeblock self).
    + exists []. rewrite app_nil_r. cbn. split; [reflexivity | lia].
  - destruct (process_one_effect l self) as [s1 [E [C1 [F1 [[n1 [L1 B1]] I1]]]]].
    destruct (IH s1) as [s2 [E2 [C2 [F2 [[n2 [L2 B2]] I2]]]]].
    exists s2. cbn [for_each]. unfold bind. rewrite E. repeat split.
    + exact E2.
    + congruence.
    + rewrite F2, F1, fence_after_xorb, odd_markers_cons. now rewrite xorb_assoc.
    + exists (n1 ++ n2). rewrite L2, L1, <- app_assoc. split; [reflexivity|].
      rewrite length_app. cbn [length]. lia.
    + tauto.
Qed.

(** X2.  The fence flag after a run of lines is the flag before it, flipped once
    for each line that starts with the marker, whatever the other lines and
    the other modes: [preprocess_section] leaves the processor inside a fence
    exactly when the content has an odd number of marker lines. *)
Theorem fence_parity :
  (forall (lines : list str) (self : Preprocessor),
      _in_codeblock (snd (for_each lines process_one self)) =
      xorb (_in_codeblock self) (Nat.odd (length (filter is_marker lines))))
  /\ (forall (section : DocSection) (self : Preprocessor),
         _in_codeblock (snd (preprocess_section section self)) =
         Nat.odd (length (filter is_marker (split LF (content section))))).
Proof.
  split.
  - intros lines self.
    destruct (for_each_effect lines self) as [s' [E [_ [F _]]]]. now rewrite E.
  - intros section self. unfold preprocess_section. run.
    match goal with |- context [for_each ?l process_one ?st] =>
      destruct (for_each_effect l st) as [s' [E [_ [F _]]]] end.
    rewrite E. cbn [snd]. rewrite F. cbn [_in_codeblock]. reflexivity.
Qed.

(** X8.  Each line of the input gives one or two lines of output, and what was
    appended before stays: the output after a run of lines is the output
    before it followed by at least as many lines as were read and at most
    twice as many. *)
Theorem output_grows (lines : list str) (self : Preprocessor) :
  exists new,
    _lines (snd (for_each lines process_one self)) = _lines self ++ new
    /\ length lines <= length new <= 2 * length lines.
Proof.
  destruct (for_each_effect lines self) as [s' [E [_ [_ [G _]]]]]. now rewrite E.
Qed.

(** X9.  The baseline is -1 or a column: from a processor where it is not below
    -1, no section leaves it below -1, so that the cut [line[self.indent:]]
    never counts from the end of the line; the configuration is never
    changed. *)
Theorem baseline_invariant (section : DocSection) (self : Preprocessor) :
  (-1 <= indent self)%Z ->
  (-1 <= indent (snd (preprocess_section section self)))%Z
  /\ config (snd (preprocess_section section self)) = config self.
Proof.
  intro H. unfold preprocess_section. run.
  match goal with |- context [for_each ?l process_one ?st] =>
    destruct (for_each_effect l st) as [s' [E [C [_ [_ I]]]]] end.
  rewrite E. cbn [snd]. cbn [indent config] in *. split; [now apply I | exact C].
Qed.

Lemma baseline_invariant_witness :
  let section := {| sig := None; title := "";
                    content := unlines ["Args:"; "    x: y"; "Returns:"] |} in
  let self := __init__ {| markdown_header_id := false |} in
  (-1 <= indent (snd (preprocess_section section self)))%Z
  /\ config (snd (preprocess_section section self)) = config self.
Proof.
  intros section self. apply (@baseline_invariant section self).
  cbn. lia.
Defined.

End LoopInvariants.

(* ================================================================= *)
(** ** Entries, baselines and indented headers *)

Section Entries.

Lemma takewhile_app_all (p : ascii -> bool) (w r : str) :
  Forall (fun c => p c = true) w ->
  takewhile p (w ++ r) = w ++ takewhile p r.
Proof.
  induction 1 as [|c w Hc _ IH]; cbn; [reflexivity|]. now rewrite Hc, IH.
Qed.

Lemma In_dropwhile (p : ascii -> bool) (c : ascii) (s : str) :
  In c (dropwhile p s) -> In c s.
Proof.
  induction s as [|x t IH]; cbn; [tauto|].
  destruct (p x); [right; now apply IH | tauto].
Qed.

Lemma In_strip (c : ascii) (s : str) : In c (strip s) -> In c s.
Proof.
  unfold strip, lstrip, rstrip. intro H.
  apply In_dropwhile in H. apply in_rev in H. apply In_dropwhile in H.
  now apply in_rev.
Qed.

Lemma split1_at (c : ascii) (a b : str) :
  contains c a = false -> split1 c (a ++ c :: b) = [a; b].
Proof.
  induction a as [|x a IH]; cbn.
  - now rewrite Ascii.eqb_refl.
  - rewrite orb_false_iff, Ascii.eqb_sym. intros [N H]. rewrite N.
    now rewrite (IH H).
Qed.

Lemma skip_leading (line : str) :
  skipn (leading_whitespace line) line = lstrip line.
Proof.
  unfold leading_whitespace, lstrip.
  pose proof (takewhile_dropwhile is_space line) as E.
  rewrite <- E at 2. rewrite skipn_app, skipn_all, Nat.sub_diag. reflexivity.
Qed.

Lemma slice_from_nat (n : nat) (s : str) : slice_from (Z.of_nat n) s = skipn n s.
Proof.
  unfold slice_from.
  replace (0 <=? Z.of_nat n)%Z with true by (symmetry; apply Z.leb_le; lia).
  now rewrite Nat2Z.id.
Qed.

(** X10.  The entry of a section in general.  In a section with an established
    baseline, a line that is no header, has the baseline as whitespace in
    front and then, between whitespace, a name without colon, a colon and a
    description, both with content, is rewritten in the format of the
    section, with the name and the description as they stand on each side
    of the first colon; the state is not changed. *)
Theorem entry_rewritten
        (self : Preprocessor) (sec : SectionName) (w rest a b : str) :
  _current_section self = Some sec ->
  indent self = Z.of_nat (length w) ->
  Forall (fun c => is_space c = true) w ->
  strip rest = a ++ ":" ++ b ->
  contains ":"%char a = false ->
  truthy (strip a) = true ->
  truthy (strip b) = true ->
  is_section_header (w ++ rest) = false ->
  _process_line (w ++ rest) self = (Ok (entry_format sec a b), self).
Proof.
  intros S I W E Ca Ta Tb H.
  assert (Cr : contains ":"%char rest = true).
  { apply contains_In, In_strip. rewrite E. apply in_or_app. right. now left. }
  assert (B : truthy (strip (w ++ rest)) = true).
  { assert (C : contains ":"%char (strip (w ++ rest)) = true).
    { apply contains_strip; [reflexivity|]. apply contains_In, in_or_app.
      right. now apply contains_In. }
    destruct (strip (w ++ rest)); [discriminate C | reflexivity]. }
  rewrite process_line_not_header, process_line_body_eq by assumption.
  assert (K : indent_check (w ++ rest) self = self).
  { unfold indent_check, leading_whitespace.
    rewrite takewhile_app_all, length_app by exact W.
    replace (indent self =? -1)%Z with false by (symmetry; apply Z.eqb_neq; lia).
    replace (Z.of_nat (length w + length (takewhile is_space rest)) <? indent self)%Z
      with false by (symmetry; apply Z.ltb_ge; lia).
    reflexivity. }
  rewrite K, S, I, slice_from_nat, skipn_app, skipn_all, Nat.sub_diag.
  cbn [skipn app section_rewrite]. unfold rewrite_entry.
  rewrite Cr, E. change (a ++ ":" ++ b) with (a ++ ":"%char :: b).
  rewrite split1_at by exact Ca. run. now rewrite Ta, Tb.
Qed.

Lemma entry_rewritten_witness :
  let self := with_indent 2 (with_current_section (Some Raises)
                (__init__ {| markdown_header_id := false |})) in
  _process_line ("  " ++ "  ValueError : if n < 0: always ") self =
  (Ok (entry_format Raises "ValueError " " if n < 0: always"), self).
Proof.
  intro self.
  apply (@entry_rewritten self Raises "  " "  ValueError : if n < 0: always "
           "ValueError " " if n < 0: always");
    try reflexivity.
  repeat constructor.
Defined.

(** X12.  The first line with content after a header sets the baseline to its own
    indentation and loses that indentation; the rewriting of the section
    then applies to what is left. *)
Theorem baseline_established (line : str) (self : Preprocessor) :
  indent self = (-1)%Z ->
  truthy (strip line) = true ->
  is_section_header line = false ->
  _process_line line self =
  section_rewrite (_current_section self) (lstrip line)
                  (with_indent (Z.of_nat (leading_whitespace line)) self).
Proof.
  intros I B H.
  rewrite process_line_not_header, process_line_body_eq by assumption.
  unfold indent_check. rewrite I. change (-1 =? -1)%Z with true. cbv iota.
  destruct self as [cfg ind sec cb dt ls].
  cbn [indent _current_section with_indent].
  now rewrite slice_from_nat, skip_leading.
Qed.

Lemma baseline_established_witness :
  let self := with_indent (-1) (with_current_section (Some Returns)
                (__init__ {| markdown_header_id := false |})) in
  _process_line "      int: the sum" self =
  section_rewrite (_current_section self) (lstrip "      int: the sum")
                  (with_indent (Z.of_nat (leading_whitespace "      int: the sum")) self).
Proof.
  intro self. apply (@baseline_established "      int: the sum" self); reflexivity.
Defined.

Lemma lstrip_skipn (k : nat) (line : str) :
  k <= leading_whitespace line -> lstrip (skipn k line) = lstrip line.
Proof.
  unfold leading_whitespace, lstrip. revert k.
  induction line as [|c t IH]; intros k H.
  - now rewrite skipn_nil.
  - destruct k as [|k]; [reflexivity|]. cbn [skipn takewhile dropwhile length] in *.
    destruct (is_space c); [apply IH; cbn in H; lia | cbn in H; lia].
Qed.

(** X13.  Outside a section the rewriter cuts indentation at most.  With no
    section and a baseline that is not below -1, a line with content that is
    no header is returned without some of its leading whitespace and
    otherwise as it came, colons or not, and no section begins. *)
Theorem plain_line_keeps_content (line : str) (self : Preprocessor) :
  _current_section self = None ->
  (-1 <= indent self)%Z ->
  truthy (strip line) = true ->
  is_section_header line = false ->
  exists k,
    k <= leading_whitespace line
    /\ _process_line line self = (Ok (skipn k line), indent_check line self)
    /\ _current_section (indent_check line self) = None
    /\ lstrip (skipn k line) = lstrip line.
Proof.
  intros S I B H.
  rewrite process_line_not_header, process_line_body_eq by assumption.
  unfold indent_check.
  destruct (indent self =? -1)%Z eqn:E1;
    [| destruct (Z.of_nat (leading_whitespace line) <? indent self)%Z eqn:E2 ].
  - exists (leading_whitespace line).
    destruct self as [cfg ind sec cb dt ls]. cbn in S. subst sec.
    cbn [indent _current_section with_indent section_rewrite].
    rewrite slice_from_nat. unfold ret.
    repeat split; [lia | now apply lstrip_skipn].
  - exists 0.
    destruct self as [cfg ind sec cb dt ls].
    cbn [indent _current_section with_indent with_current_section section_rewrite].
    repeat split; lia.
  - apply Z.eqb_neq in E1. apply Z.ltb_ge in E2.
    exists (Z.to_nat (indent self)). rewrite S.
    replace (indent self) with (Z.of_nat (Z.to_nat (indent self))) at 2 by lia.
    rewrite slice_from_nat. cbn [section_rewrite]. unfold ret.
    repeat split; [lia | apply lstrip_skipn; lia].
Qed.

Lemma plain_line_keeps_content_witness :
  let self := with_indent 4 (__init__ {| markdown_header_id := false |}) in
  exists k,
    k <= leading_whitespace "      note: kept"
    /\ _process_line "      note: kept" self =
       (Ok (skipn k "      note: kept"), indent_check "      note: kept" self)
    /\ _current_section (indent_check "      note: kept" self) = None
    /\ lstrip (skipn k "      note: kept") = lstrip "      note: kept".
Proof.
  intro self. apply (@plain_line_keeps_content "      note: kept" self);
    try reflexivity.
  cbn. lia.
Defined.

End Entries.

(* ================================================================= *)
(** ** Indented headers *)

Section IndentedHeaders.

Lemma letters_last (s : str) :
  s <> [] -> Forall (fun c => letter c = true) s ->
  exists s' c, s = s' ++ [c] /\ letter c = true.
Proof.
  intros N L. destruct (exists_last N) as [s' [c E]]. exists s', c.
  split; [exact E|]. subst s. apply Forall_app in L. destruct L as [_ L].
  now inversion L.
Qed.

(** X14.  A header is recognised with whitespace in front of it as well: the
    word is looked up without the whitespace around it.  Outside fence and
    transcript such a line sets the section and the unset baseline, and one
    line, the name between double underscores with a newline, is
    appended. *)
Theorem indented_header_recognized
        (self : Preprocessor) (alias w0 s w : str) (canonical : SectionName) :
  In (alias, canonical) valid_sections ->
  lower s = alias ->
  Forall (fun c => is_space c = true) w0 ->
  ~ In LF w0 ->
  Forall (fun c => is_space c = true) w ->
  _in_codeblock self = false ->
  _in_doctest_codeblock self = false ->
  process_one (w0 ++ s ++ ":" ++ w) self =
  (Ok tt,
   with_lines (_lines self ++ ["__" ++ section_str canonical ++ "__" ++ [LF]])
     (with_indent (-1) (with_current_section (Some canonical) self))).
Proof.
  intros I E W0 NL0 W C D.
  destruct (valid_sections_keys I) as [K [N G]].
  pose proof (@lower_letters s alias E K) as L.
  assert (N' : s <> []) by (intros ->; apply N; now rewrite <- E).
  assert (NS : Forall (fun c => is_space c = false) s).
  { eapply Forall_impl; [|exact L]. apply letter_not_space. }
  destruct s as [|c t] eqn:Es; [contradiction|]. rewrite <- Es in *.
  assert (Lc : letter c = true) by (rewrite Es in L; now inversion L).
  pose proof (letter_not_space c Lc) as Sc.
  destruct (letter_not_special c Lc) as [Bq [Gt [Dt _]]].
  assert (Lead : lstrip (w0 ++ s ++ ":" ++ w) = s ++ ":" ++ w).
  { unfold lstrip. apply takewhile_prefix; [exact W0|]. rewrite Es. exact Sc. }
  assert (Mk : is_marker (w0 ++ s ++ ":" ++ w) = false).
  { unfold is_marker. destruct W0 as [|x w0 Hx _].
    - rewrite Es. cbn [app startswith]. now rewrite Ascii.eqb_sym, Bq.
    - cbn [app startswith]. now rewrite (space_not_backtick x Hx). }
  assert (Pr : is_prompt (w0 ++ s ++ ":" ++ w) = false).
  { unfold is_prompt. rewrite Lead, Es. cbn [app firstn str_in existsb].
    now rewrite (@str_eqb_head c ">"%char), (@str_eqb_head c "."%char). }
  rewrite process_one_fence_closed by assumption.
  unfold after_fence_stage, except_LineFinished, bind.
  rewrite doctest_stage_outside by assumption.
  assert (R : rstrip (w0 ++ s ++ ":" ++ w) = (w0 ++ s) ++ ":").
  { rewrite app_assoc. now apply header_rstrip. }
  assert (NL : ~ In LF (w0 ++ s)).
  { intro H. apply in_app_or in H. destruct H as [H|H]; [now apply NL0|].
    rewrite Forall_forall in L. specialize (L _ H).
    destruct (letter_not_special LF L) as [_ [_ [_ X]]]. discriminate X. }
  assert (St : strip (w0 ++ s) = s).
  { unfold strip.
    destruct (letters_last N' L) as [s' [z [Ez Lz]]].
    rewrite Ez, app_assoc, rstrip_keeps by now apply letter_not_space.
    rewrite <- app_assoc, <- Ez. unfold lstrip.
    replace s with (s ++ []) at 1 by apply app_nil_r.
    destruct (@takewhile_prefix is_space w0 s W0) as [_ X];
      [rewrite Es; exact Sc|]. rewrite app_nil_r. exact X. }
  unfold _process_line.
  assert (T : truthy (strip (w0 ++ s ++ ":" ++ w)) = true).
  { unfold strip. rewrite R, <- app_assoc. unfold lstrip.
    destruct (@takewhile_prefix is_space w0 (s ++ ":") W0) as [_ X];
      [rewrite Es; exact Sc|]. rewrite X, Es. reflexivity. }
  rewrite T, R. cbn [negb].
  rewrite match_header_colon; [| intro X; apply app_eq_nil in X; tauto | exact NL].
  rewrite St, E, G. reflexivity.
Qed.

Lemma indented_header_recognized_witness :
  process_one ("    " ++ "Yields" ++ ":" ++ " ") (__init__ {| markdown_header_id := false |}) =
  (Ok tt,
   with_lines ["__Yields__" ++ [LF]]
     (with_indent (-1) (with_current_section (Some Yields)
        (__init__ {| markdown_header_id := false |})))).
Proof.
  apply (@indented_header_recognized
           (__init__ {| markdown_header_id := false |})
           "yields" "    " "Yields" " " Yields).
  - cbn. tauto.
  - reflexivity.
  - repeat constructor.
  - cbn. intros [H|[H|[H|[H|[]]]]]; discriminate H.
  - repeat constructor.
  - reflexivity.
  - reflexivity.
Defined.

End IndentedHeaders.

(* ================================================================= *)
(** ** More on the reference pass *)

Section ReferencePass.

Lemma match_at_no_hash (at_start : bool) (s : str) :
  ~ In "#"%char s -> match_at at_start s = None.
Proof.
  intro H. unfold match_at.
  destruct s as [|c [|h t]]; [now destruct at_start | |].
  - destruct (Ascii.eqb_spec c "#"%char) as [->|_]; [elim H; now left|].
    now destruct at_start.
  - destruct (Ascii.eqb_spec c "#"%char) as [->|_]; [elim H; now left|].
    destruct (Ascii.eqb_spec h "#"%char) as [->|_]; [elim H; right; now left|].
    rewrite andb_false_r. now destruct at_start.
Qed.

Lemma refs_from_no_hash (s : str) :
  forall at_start, ~ In "#"%char s -> refs_from at_start s = s.
Proof.
  induction s as [|c t IH]; intros st H; rewrite refs_from_step,
    match_at_no_hash by exact H; [reflexivity|].
  f_equal. apply IH. intro X. apply H. now right.
Qed.

(** X15.  Text without [#] is left as it is. *)
Theorem refs_without_hash (content : str) :
  ~ In "#"%char content -> _preprocess_refs content = content.
Proof. apply refs_from_no_hash. Qed.

Lemma refs_without_hash_witness :
  _preprocess_refs "f(x) returns `x`." = "f(x) returns `x`.".
Proof.
  apply (@refs_without_hash "f(x) returns `x`.").
  cbn. intuition discriminate.
Defined.

Lemma refs_from_lines (ls : list str) :
  forall (l : str) (at_start : bool),
    refs_from at_start (join LF (l :: ls)) =
    join LF (refs_from at_start l :: map refs_inside ls).
Proof.
  induction ls as [|l2 r IH]; intros l st; [reflexivity|].
  change (join LF (l :: l2 :: r)) with (l ++ LF :: join LF (l2 :: r)).
  rewrite (@refs_from_line (length l) l (le_n _)), IH. reflexivity.
Qed.

(** X16.  The pass works on each line by itself: the text of several lines is
    rewritten line by line, the first line as a text of its own and each
    later line as text inside the content, where a [#] needs a space or a
    tab before it. *)
Theorem refs_line_by_line (l : str) (ls : list str) :
  _preprocess_refs (join LF (l :: ls)) =
  join LF (_preprocess_refs l :: map refs_inside ls).
Proof. apply refs_from_lines. Qed.

(** *** The pass is idempotent *)

Lemma Forall_removelast (P : ascii -> Prop) (l : str) :
  Forall P l -> Forall P (removelast l).
Proof.
  induction 1 as [|c l Hc Hl IH]; [constructor|].
  cbn. destruct l; [constructor | now constructor].
Qed.

Lemma handler_shape (prefix ref : str) (parens : option str) :
  Forall (fun c => Re.is_ref_char c = true) ref ->
  parens = None \/ parens = Some "()" ->
  exists q, handler prefix ref parens = prefix ++ "`"%char :: q
            /\ Forall (fun c => is_blank c = false) q.
Proof.
  intros F P.
  assert (NB : Forall (fun c => is_blank c = false) ref).
  { eapply Forall_impl; [|exact F]. apply ref_char_not_blank. }
  unfold handler. destruct P as [->| ->]; cbn [truthy negb andb].
  - destruct (endswith "." ref).
    + eexists. split; [reflexivity|].
      rewrite app_nil_r. cbn [app]. apply Forall_app. split.
      * apply Forall_app. split; [now apply Forall_removelast | now repeat constructor].
      * now repeat constructor.
    + eexists. split; [reflexivity|].
      rewrite app_nil_r. apply Forall_app. split; [exact NB | now repeat constructor].
  - eexists. split; [reflexivity|].
    apply Forall_app. split; [|now repeat constructor].
    apply Forall_app. split; [exact NB | now repeat constructor].
Qed.

Lemma match_ref_shape (prefix s repl rest : str) :
  match_ref prefix s = Some (repl, rest) ->
  exists q, repl = prefix ++ "`"%char :: q
            /\ Forall (fun c => is_blank c = false) q.
Proof.
  unfold match_ref.
  destruct (truthy (takewhile Re.is_ref_char s)); [|discriminate].
  destruct (startswith "()" (dropwhile Re.is_ref_char s));
    intro H; injection H as <- _;
    apply handler_shape; auto using takewhile_all.
Qed.

Lemma match_ref_none (prefix s : str) :
  match_ref prefix s = None <->
  match s with [] => True | x :: _ => Re.is_ref_char x = false end.
Proof.
  unfold match_ref. destruct s as [|x t]; cbn [takewhile dropwhile truthy].
  - tauto.
  - destruct (Re.is_ref_char x); cbn [truthy].
    + destruct (startswith "()" (dropwhile Re.is_ref_char t)); split;
        intro X; discriminate X.
    + tauto.
Qed.

Lemma refs_inside_nonblank (q t : str) :
  Forall (fun c => is_blank c = false) q ->
  refs_inside (q ++ t) = q ++ refs_inside t.
Proof.
  induction 1 as [|c q Hc _ IH]; [reflexivity|].
  unfold refs_inside in *. cbn [app]. rewrite refs_from_step.
  replace (match_at false (c :: q ++ t)) with (@None (str * str)).
  - now rewrite IH.
  - unfold match_at. unfold is_blank in Hc. rewrite Hc. now destruct (q ++ t).
Qed.

(** A replacement is not rewritten again. *)
Lemma replacement_stable (at_start : bool) (s repl rest t : str) :
  match_at at_start s = Some (repl, rest) ->
  refs_from at_start (repl ++ t) = repl ++ refs_inside t.
Proof.
  intro H.
  assert (Sh : exists p q, repl = p ++ "`"%char :: q
                 /\ Forall (fun c => is_blank c = false) q
                 /\ (p = [] \/ exists c, p = [c] /\ is_blank c = true)).
  { unfold match_at in H.
    destruct at_start, s as [|c [|h u]]; try discriminate H;
      repeat match type of H with
             | context [if ?b then _ else _] =>
                 let E := fresh "E" in destruct b eqn:E
             | context [match match_ref ?p ?x with _ => _ end] =>
                 let E := fresh "M" in
                 destruct (match_ref p x) as [[? ?]|] eqn:E
             end;
      try discriminate H;
      try (injection H as <- <-);
      repeat match goal with
             | M : match_ref ?p _ = Some (_, _) |- _ =>
                 apply match_ref_shape in M; destruct M as [q [-> Q]]
             | M : match_ref ?p _ = Some (repl, rest) |- _ =>
                 apply match_ref_shape in M; destruct M as [q [-> Q]]
             end;
      try (apply match_ref_shape in H; destruct H as [q [-> Q]]);
      try (exists [], q; split; [reflexivity | split; [exact Q | now left]]);
      try (exists [c], q; split; [reflexivity | split; [exact Q |]];
           right; exists c; split; [reflexivity|];
           unfold is_blank;
           match goal with
           | E : _ && _ = true |- _ => apply andb_true_iff in E; tauto
           end). }
  destruct Sh as [p [q [-> [Q [->|[c [-> Bc]]]]]]].
  - cbn [app]. rewrite refs_from_step.
    replace (match_at at_start ("`"%char :: q ++ t)) with (@None (str * str))
      by (unfold match_at; destruct at_start, (q ++ t); reflexivity).
    f_equal. now apply refs_inside_nonblank.
  - cbn [app]. rewrite refs_from_step.
    replace (match_at at_start (c :: "`"%char :: q ++ t)) with (@None (str * str)).
    + f_equal. change (refs_from false) with refs_inside.
      apply (@refs_inside_nonblank ("`"%char :: q) t). now constructor.
    + unfold match_at. cbn [Ascii.eqb Bool.eqb]. rewrite andb_false_r.
      destruct at_start; [|reflexivity].
      destruct (Ascii.eqb_spec c "#"%char) as [->|_]; [discriminate Bc | reflexivity].
Qed.

(** The text inside the content keeps its first character. *)
Lemma refs_inside_head (t : str) : hd_error (refs_inside t) = hd_error t.
Proof.
  unfold refs_inside. rewrite refs_from_step.
  destruct (match_at false t) as [[repl rest]|] eqn:E; [|now destruct t].
  unfold match_at in E. destruct t as [|c [|h u]]; try discriminate E.
  destruct ((Ascii.eqb c " "%char || Ascii.eqb c TAB) && Ascii.eqb h "#"%char);
    [|discriminate E].
  apply match_ref_shape in E. destruct E as [q [-> _]]. reflexivity.
Qed.

Lemma match_ref_none_inside (p p' t : str) :
  match_ref p t = None -> match_ref p' (refs_inside t) = None.
Proof.
  rewrite !match_ref_none. pose proof (refs_inside_head t) as H.
  destruct (refs_inside t) as [|y r]; [tauto|].
  destruct t as [|x t]; cbn in H; [discriminate H|].
  injection H as ->. tauto.
Qed.

Lemma no_match_preserved (at_start : bool) (c : ascii) (t : str) :
  match_at at_start (c :: t) = None ->
  match_at at_start (c :: refs_inside t) = None.
Proof.
  unfold match_at. intro H.
  assert (Caret :
    (if at_start
     then if Ascii.eqb c "#"%char then match_ref "" (refs_inside t) else None
     else None) = None).
  { destruct at_start; [|reflexivity].
    destruct (Ascii.eqb c "#"%char); [|reflexivity].
    destruct (match_ref "" t) as [r|] eqn:M; [discriminate H|].
    now apply (@match_ref_none_inside "" "" t). }
  rewrite Caret.
  assert (H2 : match t with
               | h :: u =>
                   if (Ascii.eqb c " "%char || Ascii.eqb c TAB) && Ascii.eqb h "#"%char
                   then match_ref [c] u else None
               | [] => None
               end = None).
  { destruct at_start; [destruct (Ascii.eqb c "#"%char)|];
      try destruct (match_ref "" t) as [r|]; try discriminate H;
      destruct t; exact H || reflexivity. }
  clear H Caret. pose proof (refs_inside_head t) as Hd.
  destruct t as [|h u].
  - destruct (refs_inside []) eqn:E; [reflexivity | discriminate Hd].
  - destruct (Ascii.eqb_spec h "#"%char) as [->|N].
    + rewrite refs_inside_hash. rewrite andb_true_r in *.
      destruct (Ascii.eqb c " "%char || Ascii.eqb c TAB); [|reflexivity].
      now apply (@match_ref_none_inside [c] [c] u).
    + destruct (refs_inside (h :: u)) as [|y r]; [reflexivity|].
      cbn in Hd. injection Hd as ->.
      apply Ascii.eqb_neq in N. rewrite N, andb_false_r. reflexivity.
Qed.

Lemma refs_from_idempotent (n : nat) :
  forall (s : str), length s <= n ->
  forall (at_start : bool),
    refs_from at_start (refs_from at_start s) = refs_from at_start s.
Proof.
  induction n as [|n IH]; intros s L st.
  - destruct s; [|cbn in L; lia]. now destruct st.
  - rewrite (refs_from_step st s).
    destruct (match_at st s) as [[repl rest]|] eqn:E.
    + rewrite (@replacement_stable st s repl rest _ E). unfold refs_inside.
      apply match_at_shorter in E. now rewrite IH by lia.
    + destruct s as [|c t]; [now destruct st|].
      cbn [length] in L. rewrite refs_from_step.
      change (refs_from false t) with (refs_inside t).
      rewrite (@no_match_preserved st c t E). unfold refs_inside.
      now rewrite IH by lia.
Qed.

(** X17.  A second pass changes nothing: what the pass has put between backticks
    is not taken for a reference again, and a [#] it has left is left
    again. *)
Theorem refs_idempotent (content : str) :
  _preprocess_refs (_preprocess_refs content) = _preprocess_refs content.
Proof. apply (@refs_from_idempotent (length content)). apply le_n. Qed.

End ReferencePass.

(* ================================================================= *)
(** ** Whole sections *)

Section WholeSections.

Lemma split_not_empty (c : ascii) (s : str) : split c s <> [].
Proof.
  destruct s as [|x t]; cbn; [discriminate|].
  destruct (Ascii.eqb x c); [discriminate|].
  destruct (split c t); discriminate.
Qed.

(** Joining the lines of a text gives the text back. *)
Lemma join_split (c : ascii) (s : str) : join c (split c s) = s.
Proof.
  induction s as [|x t IH]; [reflexivity|]. cbn [split].
  destruct (Ascii.eqb_spec x c) as [->|N].
  - pose proof (split_not_empty c t) as NE.
    destruct (split c t) as [|h r]; [contradiction|].
    cbn [join app] in *. now rewrite IH.
  - pose proof (split_not_empty c t) as NE.
    destruct (split c t) as [|h r]; [contradiction|].
    cbn [join] in *. destruct r; cbn [app]; now rewrite <- IH.
Qed.

(** Lines that the loop body appends as they come, in states that such
    lines keep. *)
Lemma for_each_verbatim (P : str -> Prop) (Q : Preprocessor -> Prop) :
  (forall l st, P l -> Q st ->
                process_one l st = (Ok tt, with_lines (_lines st ++ [l]) st)) ->
  (forall st ls, Q st -> Q (with_lines ls st)) ->
  forall (body : list str) (st : Preprocessor),
    Q st -> Forall P body ->
    for_each body process_one st = (Ok tt, with_lines (_lines st ++ body) st).
Proof.
  intros Step Keep. induction body as [|l body IH]; intros st HQ F.
  - destruct st as [cfg ind sec cb dt ls]. cbn. now rewrite app_nil_r.
  - inversion F as [|? ? Hl F']; subst.
    cbn [for_each]. unfold bind. rewrite Step by assumption.
    rewrite IH by auto.
    destruct st as [cfg ind sec cb dt ls]. unfold with_lines. cbn.
    now rewrite <- app_assoc.
Qed.

Lemma plain_line_step (l : str) (st : Preprocessor) :
  plain_line l = true ->
  (_in_codeblock st = false /\ _in_doctest_codeblock st = false /\
   _current_section st = None /\ indent st = 0%Z) ->
  process_one l st = (Ok tt, with_lines (_lines st ++ [l]) st).
Proof.
  unfold plain_line. rewrite !andb_true_iff, !negb_true_iff.
  intros [[M P] H] [C [D [S I]]].
  rewrite process_one_fence_closed by assumption.
  unfold after_fence_stage, except_LineFinished, bind.
  rewrite doctest_stage_outside by assumption.
  assert (E : _process_line l st = (Ok l, st)).
  { destruct (truthy (strip l)) eqn:B.
    - rewrite process_line_not_header by assumption. now apply body_plain.
    - now rewrite process_line_blank. }
  rewrite E. reflexivity.
Qed.

(** X19.  Text without markup comes out as it went in.  On a processor whose
    baseline is 0, a content without [#] whose lines are no fence markers,
    no prompts and no section headers is returned unchanged; only the
    title is set. *)
Theorem plain_text_unchanged (section : DocSection) (self : Preprocessor) :
  indent self = 0%Z ->
  Forall (fun l => plain_line l = true) (split LF (content section)) ->
  ~ In "#"%char (content section) ->
  fst (preprocess_section section self) =
  Ok {| sig := sig section;
        title := section_title (config self) section;
        content := content section |}.
Proof.
  intros I F H. unfold preprocess_section. run.
  rewrite (@for_each_verbatim
             (fun l => plain_line l = true)
             (fun st => _in_codeblock st = false /\ _in_doctest_codeblock st = false /\
                        _current_section st = None /\ indent st = 0%Z)
             plain_line_step).
  - cbn [fst _lines with_lines app]. rewrite join_split.
    do 2 f_equal. exact (@refs_from_no_hash (content section) true H).
  - intros st ls Q. destruct st; exact Q.
  - cbn. tauto.
  - exact F.
Qed.

Lemma plain_text_unchanged_witness :
  let section := {| sig := None; title := "t";
                    content := unlines ["Adds a: b"; ""; "  Note:"; "done."] |} in
  let self := __init__ {| markdown_header_id := true |} in
  fst (preprocess_section section self) =
  Ok {| sig := sig section;
        title := section_title (config self) section;
        content := content section |}.
Proof.
  intros section self. apply (@plain_text_unchanged section self).
  - reflexivity.
  - repeat constructor.
  - cbn. intuition discriminate.
Defined.

Lemma fenced_line_step (l : str) (st : Preprocessor) :
  is_marker l = false -> _in_codeblock st = true ->
  process_one l st = (Ok tt, with_lines (_lines st ++ [l]) st).
Proof.
  intros M C. unfold process_one, except_LineFinished. unfold bind at 1.
  rewrite codeblock_stage_cases, fence_after_xorb, C, M. cbn [xorb].
  destruct st as [cfg ind sec cb dt ls]. cbn in C. now subst cb.
Qed.

(** X20.  A fence that is never closed.  When the first line of the content is
    a marker and no later line is, every line is appended as it came and
    the content returned is the reference pass of the content given: the
    pass does not know of fences, and rewrites the references in the
    block. *)
Theorem unclosed_fence_content
        (section : DocSection) (first : str) (body : list str)
        (self : Preprocessor) :
  split LF (content section) = first :: body ->
  is_marker first = true ->
  Forall (fun l => is_marker l = false) body ->
  fst (preprocess_section section self) =
    Ok {| sig := sig section;
          title := section_title (config self) section;
          content := _preprocess_refs (content section) |}
  /\ _in_codeblock (snd (preprocess_section section self)) = true.
Proof.
  intros E M F.
  assert (S1 : forall st, _in_codeblock st = false ->
             process_one first st =
             (Ok tt, with_lines (_lines st ++ [first]) (with_in_codeblock true st))).
  { intros st C. unfold process_one, except_LineFinished. unfold bind at 1.
    rewrite codeblock_stage_cases, fence_after_xorb, C, M. reflexivity. }
  assert (R : exists st',
             preprocess_section section self =
             (Ok {| sig := sig section;
                    title := section_title (config self) section;
                    content := _preprocess_refs (content section) |}, st')
             /\ _in_codeblock st' = true).
  { unfold preprocess_section. run. rewrite E.
    cbn [for_each]. unfold bind at 1. rewrite S1 by reflexivity.
    rewrite (@for_each_verbatim
               (fun l => is_marker l = false)
               (fun st => _in_codeblock st = true)
               fenced_line_step); [| intros st ls Q; destruct st; exact Q
                                   | reflexivity | exact F ].
    eexists. split.
    - cbn [_lines with_lines with_in_codeblock app].
      rewrite <- E, join_split. reflexivity.
    - reflexivity. }
  destruct R as [st' [R C]]. rewrite R. now split.
Qed.

Lemma unclosed_fence_content_witness :
  let section := {| sig := None; title := "";
                    content := unlines ["```python"; "Args:"; "x = 1 #note"] |} in
  let self := __init__ {| markdown_header_id := false |} in
  fst (preprocess_section section self) =
    Ok {| sig := sig section;
          title := section_title (config self) section;
          content := _preprocess_refs (content section) |}
  /\ _in_codeblock (snd (preprocess_section section self)) = true.
Proof.
  intros section self.
  apply (@unclosed_fence_content section "```python" ["Args:"; "x = 1 #note"] self).
  - reflexivity.
  - reflexivity.
  - repeat constructor.
Defined.



Lemma escaped_injective (a : str) : forall b, escaped a = escaped b -> a = b.
Proof.
  unfold escaped. induction a as [|c a IH]; intros [|d b]; cbn [flat_map].
  - reflexivity.
  - destruct (is_metachar d); discriminate.
  - destruct (is_metachar c); discriminate.
  - destruct (is_metachar c) eqn:Mc, (is_metachar d) eqn:Md; cbn [app]; intro H.
    + injection H as -> H. f_equal. now apply IH.
    + injection H as <- _. discriminate Md.
    + injection H as -> _. discriminate Mc.
    + injection H as -> H. f_equal. now apply IH.
Qed.

(** X22.  The escaping loses nothing: two signatures with the same escaped text
    are the same signature. *)
Theorem escape_sig_injective (a b : str) :
  escape_sig a = escape_sig b -> a = b.
Proof. rewrite !escape_sig_escaped. apply escaped_injective. Qed.

Lemma escape_sig_injective_witness :
  escape_sig "a\_b" = escape_sig "a\_b" /\ "a\_b" = "a\_b".
Proof.
  split; [reflexivity|]. apply (@escape_sig_injective "a\_b" "a\_b"). reflexivity.
Defined.

Lemma fenced_lines_verbatim_witness :
  let self := with_in_codeblock true (__init__ {| markdown_header_id := false |}) in
  for_each ["Args:"; ">>> x"; "  y: z"] process_one self =
  (Ok tt, with_lines (_lines self ++ ["Args:"; ">>> x"; "  y: z"]) self).
Proof.
  intro self. apply (@fenced_lines_verbatim ["Args:"; ">>> x"; "  y: z"] self).
  - reflexivity.
  - repeat constructor.
Defined.

Lemma preprocess_section_reset_witness :
  let section := {| sig := Some "f(x)"; title := ""; content := "  Returns:" |} in
  let self := with_lines ["old"] (with_in_codeblock true
                (with_current_section (Some Raises) (used_processor {| markdown_header_id := true |}))) in
  let other := with_indent 4 (__init__ {| markdown_header_id := true |}) in
  preprocess_section section self = preprocess_section section other.
Proof.
  intros section self other. apply (@preprocess_section_reset section self other);
    reflexivity.
Defined.

End WholeSections.

(* ================================================================= *)
(** ** What is kept *)

Section Kept.

(** X7.  The tabs of the indentation become eight spaces each, and what follows
    the indentation is kept, tabs included; a line without tabs in its
    indentation is not changed. *)
Theorem tabs_expanded_in_indentation (w t : str) :
  Forall (fun c => is_space c = true) w ->
  match t with [] => True | c :: _ => is_space c = false end ->
  expand_tabs (w ++ t) = replace TAB (spaces 8) w ++ t
  /\ (~ In TAB w -> expand_tabs (w ++ t) = w ++ t).
Proof.
  intros W T. rewrite expand_tabs_eq. unfold lstrip.
  destruct (@takewhile_prefix is_space w t W T) as [-> ->].
  split; [reflexivity|]. intro N. f_equal.
  clear W T. unfold replace. induction w as [|c w IH]; [reflexivity|].
  cbn [flat_map]. destruct (Ascii.eqb_spec c TAB) as [->|_].
  - elim N. now left.
  - cbn [app]. f_equal. apply IH. intro X. apply N. now right.
Qed.

Lemma tabs_expanded_in_indentation_witness :
  expand_tabs ((" " ++ [TAB]) ++ (">>> a" ++ [TAB] ++ "b")) =
    replace TAB (spaces 8) (" " ++ [TAB]) ++ (">>> a" ++ [TAB] ++ "b")
  /\ (~ In TAB (" " ++ [TAB]) ->
      expand_tabs ((" " ++ [TAB]) ++ (">>> a" ++ [TAB] ++ "b")) =
      (" " ++ [TAB]) ++ (">>> a" ++ [TAB] ++ "b")).
Proof.
  apply (@tabs_expanded_in_indentation (" " ++ [TAB]) (">>> a" ++ [TAB] ++ "b")).
  - repeat constructor.
  - reflexivity.
Defined.

(** X6.  A transcript that the content does not close: the block is opened and
    filled, no closing marker is appended, and the processor is left inside
    the transcript. *)
Theorem transcript_left_open
        (first : str) (body : list str) (self : Preprocessor) :
  _in_codeblock self = false ->
  _in_doctest_codeblock self = false ->
  is_prompt first = true ->
  Forall (fun l => truthy (strip l) = true /\ is_marker l = false) body ->
  for_each (first :: body) process_one self =
  (Ok tt,
   with_lines (_lines self ++
               "```python" :: expand_tabs first :: map transcript_line body)
              (with_in_doctest_codeblock true self)).
Proof.
  intros C D P F.
  cbn [for_each]. unfold bind at 1.
  rewrite process_one_fence_closed by (apply prompt_not_marker; assumption) || assumption.
  unfold after_fence_stage at 1, except_LineFinished, bind at 1.
  rewrite doctest_stage_open by assumption.
  rewrite transcript_lines_run;
    [| destruct self; assumption | destruct self; reflexivity | assumption].
  destruct self as [cfg ind sec cb dt ls].
  unfold with_lines, with_in_doctest_codeblock. cbn.
  repeat rewrite <- app_assoc. reflexivity.
Qed.

Lemma transcript_left_open_witness :
  let self := __init__ {| markdown_header_id := false |} in
  for_each (">>> 1 + 1" :: ["2"]) process_one self =
  (Ok tt,
   with_lines (_lines self ++
               "```python" :: expand_tabs ">>> 1 + 1" :: map transcript_line ["2"])
              (with_in_doctest_codeblock true self)).
Proof.
  intro self. apply (@transcript_left_open ">>> 1 + 1" ["2"] self); try reflexivity.
  repeat constructor.
Defined.

(** X11.  A line of a section that is no entry.  With the baseline as whitespace
    in front, a line that has no colon, or that has nothing but whitespace
    on one side of its first colon, is returned without the baseline and
    otherwise as it came, whatever the section; the state is not changed. *)
Theorem section_line_kept
        (self : Preprocessor) (w rest a b : str) :
  indent self = Z.of_nat (length w) ->
  Forall (fun c => is_space c = true) w ->
  truthy (strip (w ++ rest)) = true ->
  is_section_header (w ++ rest) = false ->
  contains ":"%char rest = false
  \/ (strip rest = a ++ ":" ++ b /\ contains ":"%char a = false /\
      truthy (strip a) && truthy (strip b) = false) ->
  _process_line (w ++ rest) self = (Ok rest, self).
Proof.
  intros I W B H Alt.
  rewrite process_line_not_header, process_line_body_eq by assumption.
  assert (K : indent_check (w ++ rest) self = self).
  { unfold indent_check, leading_whitespace.
    rewrite takewhile_app_all, length_app by exact W.
    replace (indent self =? -1)%Z with false by (symmetry; apply Z.eqb_neq; lia).
    replace (Z.of_nat (length w + length (takewhile is_space rest)) <? indent self)%Z
      with false by (symmetry; apply Z.ltb_ge; lia).
    reflexivity. }
  rewrite K, I, slice_from_nat, skipn_app, skipn_all, Nat.sub_diag.
  cbn [skipn app].
  destruct (_current_section self) as [sec|]; [|reflexivity].
  cbn [section_rewrite]. unfold rewrite_entry.
  destruct Alt as [N | [E [Ca T]]]; [now rewrite N|].
  destruct (contains ":"%char rest); [|reflexivity].
  rewrite E. change (a ++ ":" ++ b) with (a ++ ":"%char :: b).
  rewrite split1_at by exact Ca. run. now rewrite T.
Qed.

Lemma section_line_kept_witness :
  let self := with_indent 4 (with_current_section (Some Arguments)
                (__init__ {| markdown_header_id := false |})) in
  _process_line ("    " ++ "  Example:") self = (Ok "  Example:", self).
Proof.
  intro self.
  apply (@section_line_kept self "    " "  Example:" "Example" "");
    try reflexivity.
  - repeat constructor.
  - right. repeat split.
Defined.

Lemma other_chars_app (a b : str) :
  other_chars (a ++ b) = other_chars a ++ other_chars b.
Proof. apply filter_app. Qed.

Lemma endswith_dot (r : str) :
  endswith "." r = true -> r = removelast r ++ ["."%char].
Proof.
  unfold endswith. cbn [rev app].
  rewrite <- (rev_involutive r) at 2 3. destruct (rev r) as [|x l]; [discriminate|].
  cbn [startswith rev]. rewrite andb_true_r. intro E.
  apply Ascii.eqb_eq in E. subst x. now rewrite removelast_last.
Qed.

Lemma startswith_parens (d : str) :
  startswith "()" d = true -> d = "()" ++ skipn 2 d.
Proof.
  destruct d as [|x [|y d]]; cbn [startswith skipn app].
  - discriminate.
  - rewrite andb_false_r. discriminate.
  - rewrite andb_true_r, andb_true_iff, !Ascii.eqb_eq. now intros [<- <-].
Qed.

Lemma match_ref_text (prefix s repl rest : str) :
  match_ref prefix s = Some (repl, rest) ->
  exists m, s = m ++ rest /\ other_chars repl = other_chars prefix ++ other_chars m.
Proof.
  unfold match_ref. pose proof (takewhile_dropwhile Re.is_ref_char s) as E.
  set (r := takewhile Re.is_ref_char s) in *.
  set (d := dropwhile Re.is_ref_char s) in *.
  destruct (truthy r); [|discriminate].
  destruct (startswith "()" d) eqn:P; intro H; injection H as <- <-.
  - exists (r ++ "()"). apply startswith_parens in P. split.
    + transitivity (r ++ d); [now symmetry|].
      rewrite <- app_assoc. f_equal. exact P.
    + unfold handler. cbn [truthy negb andb].
      rewrite !other_chars_app.
      replace (other_chars "`") with (@nil ascii) by reflexivity.
      cbn [app]. now rewrite !app_nil_r.
  - exists r. split; [now symmetry|]. unfold handler. cbn [truthy negb andb].
    destruct (endswith "." r) eqn:D.
    + apply endswith_dot in D. rewrite D at 2. unfold drop_last.
      rewrite !other_chars_app.
      replace (other_chars "`") with (@nil ascii) by reflexivity.
      replace (other_chars "") with (@nil ascii) by reflexivity.
      cbn [app]. now rewrite !app_nil_r.
    + rewrite !other_chars_app.
      replace (other_chars "`") with (@nil ascii) by reflexivity.
      replace (other_chars "") with (@nil ascii) by reflexivity.
      cbn [app]. now rewrite !app_nil_r.
Qed.

Lemma match_at_text (at_start : bool) (s repl rest : str) :
  match_at at_start s = Some (repl, rest) ->
  exists m, s = m ++ rest /\ other_chars repl = other_chars m.
Proof.
  unfold match_at. intro H.
  assert (Second :
    match s with
    | c :: h :: t =>
        if (Ascii.eqb c " "%char || Ascii.eqb c TAB) && Ascii.eqb h "#"%char
        then match_ref [c] t else None
    | _ => None
    end = Some (repl, rest) ->
    exists m, s = m ++ rest /\ other_chars repl = other_chars m).
  { destruct s as [|c [|h t]]; try discriminate.
    destruct ((Ascii.eqb c " "%char || Ascii.eqb c TAB) && Ascii.eqb h "#"%char) eqn:B;
      [|discriminate].
    apply andb_true_iff in B. destruct B as [_ B]. apply Ascii.eqb_eq in B. subst h.
    intro M. apply match_ref_text in M. destruct M as [m [-> O]].
    exists (c :: "#"%char :: m). split; [reflexivity|].
    rewrite O. change (c :: "#"%char :: m) with ([c] ++ "#"%char :: m).
    now rewrite other_chars_app. }
  destruct at_start; [|exact (Second H)].
  destruct s as [|c t]; [discriminate H|].
  destruct (Ascii.eqb_spec c "#"%char) as [->|N]; [|exact (Second H)].
  destruct (match_ref "" t) as [[r0 s0]|] eqn:M; [|exact (Second H)].
  injection H as <- <-. apply match_ref_text in M. destruct M as [m [-> O]].
  exists ("#"%char :: m). split; [reflexivity | exact O].
Qed.

Lemma refs_from_keeps_text (n : nat) :
  forall (s : str), length s <= n ->
  forall (at_start : bool), other_chars (refs_from at_start s) = other_chars s.
Proof.
  induction n as [|n IH]; intros s L st.
  - destruct s; [|cbn in L; lia]. now destruct st.
  - rewrite refs_from_step.
    destruct (match_at st s) as [[repl rest]|] eqn:E.
    + pose proof (match_at_shorter _ _ E) as Sh.
      apply match_at_text in E. destruct E as [m [-> O]].
      rewrite !other_chars_app, IH by lia. now rewrite O.
    + destruct s as [|c t]; [reflexivity|]. cbn [length] in L.
      change (c :: refs_from false t) with ([c] ++ refs_from false t).
      change (c :: t) with ([c] ++ t).
      rewrite !other_chars_app, IH by lia. reflexivity.
Qed.

(** X18.  The pass takes [#] characters away and puts backticks in, and does
    nothing else: the other characters of the content are all kept, in
    their order. *)
Theorem refs_keeps_text (content : str) :
  other_chars (_preprocess_refs content) = other_chars content.
Proof. apply (@refs_from_keeps_text (length content)). apply le_n. Qed.

End Kept.
